(** * The plugin engine of the monitoring agent

    A shallow embedding of [src/apps/agent/plugin.go] (output parsing, the
    perfdata tokenizer, rate calculation) and of the plugin registry
    ([getAvailablePlugins] and [getPluginsInfo]), together with the
    properties of the specification that can be stated over them.

    Go strings are byte strings: they are modelled by [string], whose
    characters are the 256 values of [ascii].  Go maps are modelled by
    stdpp's [gmap]; a [nil] map or slice is [None].  A function that can
    return an error or abort with a run-time panic returns a [result]. *)

From Stdlib Require Import ZArith String Ascii List Floats Lia Bool.
From stdpp Require Import gmap strings list fin_maps.

Open Scope string_scope.

(** ** Outcomes of a Go call *)

(** Run-time panics the modelled code can raise. *)
Inductive panic : Type :=
| IndexOutOfRange (index len : Z)
| SliceBoundsOutOfRange (bound len : Z)
| UnknownState (st : Z).

(** Values of Go's [error] that the modelled code returns. *)
Inductive error : Type :=
| ErrFirstLineFormat
| ErrUnknownOutputType (outputType : string)
| ErrLibrary (msg : string).

Inductive result (A : Type) : Type :=
| Ok (a : A)
| Err (e : error)
| Panic (p : panic).

Arguments Ok {A} a.
Arguments Err {A} e.
Arguments Panic {A} p.

#[global] Instance result_ret : MRet result := fun A a => Ok a.
#[global] Instance result_fmap : FMap result := fun A B f m =>
  match m with
  | Ok a => Ok (f a)
  | Err e => Err e
  | Panic p => Panic p
  end.
#[global] Instance result_bind : MBind result := fun A B f m =>
  match m with
  | Ok a => f a
  | Err e => Err e
  | Panic p => Panic p
  end.

(** ** The parts of Go's library the agent calls *)

Module Go.

Definition len (s : string) : Z := Z.of_nat (String.length s).

Fixpoint drop (n : nat) (s : string) : string :=
  match n, s with
  | S k, String _ t => drop k t
  | _, _ => s
  end.

Fixpoint take (n : nat) (s : string) : string :=
  match n, s with
  | S k, String c t => String c (take k t)
  | _, _ => EmptyString
  end.

Fixpoint rev_append (s acc : string) : string :=
  match s with
  | EmptyString => acc
  | String c t => rev_append t (String c acc)
  end.

Definition reverse (s : string) : string := rev_append s EmptyString.

(** [s[i]] on a string: a panic outside [0 <= i < len(s)]. *)
Definition index (s : string) (i : Z) : result ascii :=
  if (i <? 0)%Z then Panic (IndexOutOfRange i (len s))
  else match String.get (Z.to_nat i) s with
       | Some c => Ok c
       | None => Panic (IndexOutOfRange i (len s))
       end.

(** [s[lo:hi]] on a string: a panic unless [0 <= lo <= hi <= len(s)]. *)
Definition slice (s : string) (lo hi : Z) : result string :=
  if (lo <? 0)%Z then Panic (SliceBoundsOutOfRange lo (len s))
  else if (len s <? hi)%Z then Panic (SliceBoundsOutOfRange hi (len s))
  else if (hi <? lo)%Z then Panic (SliceBoundsOutOfRange lo hi)
  else Ok (take (Z.to_nat (hi - lo)) (drop (Z.to_nat lo) s)).

(** [l[i]] on a slice of strings. *)
Definition at_ (l : list string) (i : nat) : result string :=
  match l !! i with
  | Some s => Ok s
  | None => Panic (IndexOutOfRange (Z.of_nat i) (Z.of_nat (length l)))
  end.

(** [strings.Split(s, sep)] for a separator of one byte: the pieces
    between the occurrences of [sep], one more than there are
    occurrences. *)
Fixpoint Split (s : string) (sep : ascii) : list string :=
  match s with
  | EmptyString => [EmptyString]
  | String c t =>
      if Ascii.eqb c sep then EmptyString :: Split t sep
      else match Split t sep with
           | piece :: pieces => String c piece :: pieces
           | [] => [String c EmptyString]
           end
  end.

(** [strings.HasSuffix(s, suffix)]. *)
Definition HasSuffix (s suffix : string) : bool :=
  String.prefix (reverse suffix) (reverse s).

(** [strings.Count(s, sep)] for a separator of one byte. *)
Fixpoint Count (s : string) (sep : ascii) : nat :=
  match s with
  | EmptyString => 0%nat
  | String c t => ((if Ascii.eqb c sep then 1 else 0) + Count t sep)%nat
  end.

Definition byte (c : ascii) : N := N_of_ascii c.

Definition isAsciiSpace (b : N) : bool :=
  ((9 <=? b) && (b <=? 13) || (b =? 32))%N.

(** The two-byte and three-byte UTF-8 encodings of the white space
    runes (in the sense of [unicode.IsSpace]) beyond ASCII: U+0085,
    U+00A0; U+1680, U+2000..U+200A, U+2028, U+2029, U+202F, U+205F,
    U+3000. *)
Definition isSpace2 (b1 b2 : N) : bool :=
  ((b1 =? 194) && ((b2 =? 133) || (b2 =? 160)))%N.

Definition isSpace3 (b1 b2 b3 : N) : bool :=
  ((b1 =? 225) && (b2 =? 154) && (b3 =? 128)
   || (b1 =? 226) && (b2 =? 128)
      && ((128 <=? b3) && (b3 <=? 138)
          || (b3 =? 168) || (b3 =? 169) || (b3 =? 175))
   || (b1 =? 226) && (b2 =? 129) && (b3 =? 159)
   || (b1 =? 227) && (b2 =? 128) && (b3 =? 128))%N.

(** The number of bytes of the white space rune that starts [s], or
    [0] when [s] does not start with one (what [utf8.DecodeRuneInString]
    and [unicode.IsSpace] find). *)
Definition spaceRuneLen (s : string) : nat :=
  match s with
  | String c1 t1 =>
      if isAsciiSpace (byte c1) then 1%nat
      else match t1 with
           | String c2 t2 =>
               if isSpace2 (byte c1) (byte c2) then 2%nat
               else match t2 with
                    | String c3 _ =>
                        if isSpace3 (byte c1) (byte c2) (byte c3)
                        then 3%nat else 0%nat
                    | EmptyString => 0%nat
                    end
           | EmptyString => 0%nat
           end
  | EmptyString => 0%nat
  end.

(** The same for the rune that ends the string whose reversal is [r]
    (what [utf8.DecodeLastRuneInString] finds): [r] starts with the
    last byte. *)
Definition spaceRuneLenRev (r : string) : nat :=
  match r with
  | String c1 t1 =>
      if isAsciiSpace (byte c1) then 1%nat
      else match t1 with
           | String c2 t2 =>
               if isSpace2 (byte c2) (byte c1) then 2%nat
               else match t2 with
                    | String c3 _ =>
                        if isSpace3 (byte c3) (byte c2) (byte c1)
                        then 3%nat else 0%nat
                    | EmptyString => 0%nat
                    end
           | EmptyString => 0%nat
           end
  | EmptyString => 0%nat
  end.

(** Removes white space runes from the front, one rune for each unit
    of [fuel]. *)
Fixpoint trimRunes (runeLen : string -> nat) (fuel : nat) (s : string)
  : string :=
  match fuel with
  | O => s
  | S fuel' =>
      match runeLen s with
      | O => s
      | S k => trimRunes runeLen fuel' (drop (S k) s)
      end
  end.

Definition TrimLeftSpace (s : string) : string :=
  trimRunes spaceRuneLen (String.length s) s.

Definition TrimRightSpace (s : string) : string :=
  reverse (trimRunes spaceRuneLenRev (String.length s) (reverse s)).

(** [strings.TrimSpace]: [TrimFunc(s, unicode.IsSpace)]. *)
Definition TrimSpace (s : string) : string :=
  TrimRightSpace (TrimLeftSpace s).

(** [time.Time] as nanoseconds on the clock's axis, [time.Duration] as
    a signed 64-bit count of nanoseconds. *)
Definition Time : Type := Z.
Definition Duration : Type := Z.

Definition minDuration : Duration := (- 2 ^ 63)%Z.
Definition maxDuration : Duration := (2 ^ 63 - 1)%Z.
Definition Second : Duration := 1000000000%Z.

(** [t.Sub(u)]: the difference, saturated to the range of [Duration]. *)
Definition Sub (t u : Time) : Duration :=
  let d := (t - u)%Z in
  if (d <? minDuration)%Z then minDuration
  else if (maxDuration <? d)%Z then maxDuration
  else d.

(** [float64(n)] for an integer of at most 63 bits of magnitude. *)
Definition float64 (n : Z) : float :=
  if (n <? 0)%Z then PrimFloat.opp (PrimFloat.of_uint63 (Uint63.of_Z (- n)))
  else PrimFloat.of_uint63 (Uint63.of_Z n).

(** [d.Seconds()]: whole seconds plus the fraction, as the library
    computes it. *)
Definition Seconds (d : Duration) : float :=
  let sec := Z.quot d Second in
  let nsec := Z.rem d Second in
  (float64 sec + float64 nsec / 1e9)%float.

End Go.


(** ** Data of the agent *)

(** [type PluginStateOutput int], with the constants [OK] to [UNKNOWN]
    numbered by [iota]. *)
Definition PluginStateOutput : Type := Z.

Definition OK : PluginStateOutput := 0%Z.
Definition WARNING : PluginStateOutput := 1%Z.
Definition CRITICAL : PluginStateOutput := 2%Z.
Definition UNKNOWN : PluginStateOutput := 3%Z.

(** The method [String] of [PluginStateOutput]; its [default] branch
    panics. *)
Definition PluginStateOutput_String (p : PluginStateOutput) : result string :=
  match p with
  | 0%Z => Ok "ok"
  | 1%Z => Ok "warning"
  | 2%Z => Ok "critical"
  | 3%Z => Ok "unknown"
  | _ => Panic (UnknownState p)
  end.

(** The fields of [errplane.JsonPoint] and [errplane.JsonPoints] (package
    errplane-go) that the agent reads or writes. *)
Record JsonPoint : Type := {
  Value : float;
  Dimensions : gmap string string
}.

Record JsonPoints : Type := {
  JsonPoints_Name : string;
  Points : list JsonPoint
}.

(** Modelled from the spec: the declaration of [PluginMetadata] lives in
    package [utils], which is not part of the sources at hand; the fields
    are those of the data model ([name], [path], [outputFormat],
    [ratePatterns], [isCustom]) under the names the code uses for them. *)
Record PluginMetadata : Type := {
  Name : string;
  Path : string;
  Output : string;
  CalculateRates : list string;
  IsCustom : bool
}.

(** Modelled from the spec: the declaration of [Instance] lives in package
    [utils] as well; [name], [argsList] and [args] of the data model, in
    the order of the composite literals [Instance{"default", nil, nil}]. *)
Record Instance : Type := {
  Instance_Name : string;
  ArgsList : list string;
  Args : gmap string string
}.

(** Modelled from the spec: the declaration of [AgentConfiguration] lives
    in package [utils]; of the run configuration only the field [Plugins]
    is used, the instances to run for each plugin name. *)
Record AgentConfiguration : Type := {
  Plugins : gmap string (list Instance)
}.

Definition DEFAULT_INSTANCE : Instance :=
  {| Instance_Name := "default"; ArgsList := []; Args := ∅ |}.

Definition DEFAULT_INSTANCES : list Instance :=
  [ {| Instance_Name := ""; ArgsList := []; Args := ∅ |} ].

Record PluginOutput : Type := {
  state : PluginStateOutput;
  msg : string;
  points : option (list JsonPoints);
  metrics : option (gmap string float);
  timestamp : Go.Time
}.

(** A call [report(ep, name, value, time.Now(), dimensions, nil)], without
    the time of the call. *)
Record Report : Type := {
  report_name : string;
  report_value : float;
  report_dimensions : gmap string string
}.

(** An entry of a directory listing ([os.FileInfo]). *)
Record FileInfo : Type := {
  FileInfo_Name : string;
  IsDir : bool
}.

(** What [ioutil.ReadDir] and [ioutil.ReadFile] answer. *)
Record FileSystem : Type := {
  ReadDir : string -> list FileInfo * option error;
  ReadFile : string -> string * option error
}.

(** ** The perfdata tokenizer (the loop of [parseNagiosOutput]) *)

Module Tokenizer.

Inductive ParserState : Type := IN_QUOTED_FIELD | IN_VALUE | START.

(** The local variables of the loop. *)
Record t : Type := {
  metricName : string;
  value : string;
  token : string;
  state : ParserState;
  metrics : gmap string string
}.

Definition init : t :=
  {| metricName := ""; value := ""; token := ""; state := START;
     metrics := ∅ |}.

(** One iteration for the byte ['\'']; [doubled] tells whether the next
    byte is a quote too (the iteration then consumes it). *)
Definition onQuote (st : t) (doubled : bool) : t :=
  match state st with
  | IN_QUOTED_FIELD =>
      if doubled then
        {| metricName := metricName st; value := value st;
           token := token st ++ "'"; state := state st;
           metrics := metrics st |}
      else st
  | IN_VALUE =>
      {| metricName := ""; value := ""; token := "";
         state := IN_QUOTED_FIELD;
         metrics := <[metricName st := value st ++ token st]> (metrics st) |}
  | START =>
      {| metricName := metricName st; value := value st;
         token := token st; state := IN_QUOTED_FIELD;
         metrics := metrics st |}
  end.

(** One iteration for the byte ['=']. *)
Definition onEquals (st : t) : t :=
  match state st with
  | IN_VALUE =>
      {| metricName := token st; value := ""; token := "";
         state := IN_VALUE;
         metrics := <[metricName st := value st]> (metrics st) |}
  | START =>
      {| metricName := token st; value := ""; token := "";
         state := IN_VALUE; metrics := metrics st |}
  | IN_QUOTED_FIELD =>
      {| metricName := token st; value := value st; token := "";
         state := IN_VALUE; metrics := metrics st |}
  end.

(** One iteration for the byte [' ']. *)
Definition onSpace (st : t) : t :=
  match state st with
  | IN_VALUE =>
      {| metricName := metricName st;
         value := value st ++ " " ++ token st; token := "";
         state := state st; metrics := metrics st |}
  | IN_QUOTED_FIELD =>
      {| metricName := metricName st ++ " " ++ token st;
         value := value st; token := "";
         state := state st; metrics := metrics st |}
  | START =>
      {| metricName := metricName st; value := value st; token := "";
         state := state st; metrics := metrics st |}
  end.

(** One iteration for any other byte: [token.WriteByte]. *)
Definition onByte (st : t) (c : ascii) : t :=
  {| metricName := metricName st; value := value st;
     token := token st ++ String c EmptyString;
     state := state st; metrics := metrics st |}.

(** The loop [for i := 0; i < len(metricsLine); i++] over the rest of
    the line from index [i] on. *)
Fixpoint scan (st : t) (metricsLine : string) : t :=
  match metricsLine with
  | EmptyString => st
  | String c rest =>
      match c with
      | "'"%char =>
          match state st, rest with
          | IN_QUOTED_FIELD, String c' rest' =>
              if Ascii.eqb c' "'" then scan (onQuote st true) rest'
              else scan (onQuote st false) rest
          | _, _ => scan (onQuote st false) rest
          end
      | "="%char => scan (onEquals st) rest
      | " "%char => scan (onSpace st) rest
      | _ => scan (onByte st c) rest
      end
  end.

(** The loop followed by the store of the last metric. *)
Definition tokenize (metricsLine : string) : gmap string string :=
  let st := scan init metricsLine in
  <[metricName st := value st ++ token st]> (metrics st).

End Tokenizer.

(** ** Sample stand-ins for library calls, used to run the code on
    concrete inputs *)

(** A matcher that knows literal patterns only: the pattern matches the
    names that contain it. *)
Fixpoint containsLiteral (pattern name : string) : bool :=
  String.prefix pattern name
  || match name with
     | EmptyString => false
     | String _ rest => containsLiteral pattern rest
     end.

Definition literalMatchString (pattern name : string) : bool * option error :=
  (containsLiteral pattern name, None).

(** A number parser that knows unsigned decimal integers only. *)
Fixpoint digitsValue (acc : Z) (s : string) : option Z :=
  match s with
  | EmptyString => Some acc
  | String c rest =>
      let b := Z.of_N (Go.byte c) in
      if ((48 <=? b) && (b <=? 57))%Z
      then digitsValue (10 * acc + (b - 48))%Z rest
      else None
  end.

Definition integerParseFloat (s : string) : float * option error :=
  match s with
  | EmptyString => (0%float, Some (ErrLibrary "invalid syntax"))
  | _ =>
      match digitsValue 0 s with
      | Some n =>
          if (n <? 2 ^ 53)%Z then (Go.float64 n, None)
          else (0%float, Some (ErrLibrary "invalid syntax"))
      | None => (0%float, Some (ErrLibrary "invalid syntax"))
      end
  end.

(** A decoder that knows the empty array only. *)
Definition emptyArrayUnmarshal (data : string)
  : option (list JsonPoints) * option error :=
  if String.eqb data "[]" then (Some [], None)
  else (Some [], Some (ErrLibrary "invalid character")).

(** Paths joined by a slash, and the part after the last slash. *)
Definition slashJoin (elem : list string) : string :=
  match elem with
  | [] => ""
  | first :: rest => foldl (fun joined e => joined ++ "/" ++ e) first rest
  end.

Definition lastComponent (path : string) : string :=
  default "" (last (Go.Split path "/")).

(** A descriptor that holds the output format and nothing else. *)
Definition formatOnlyYaml (content : string) : PluginMetadata * option error :=
  ({| Name := ""; Path := ""; Output := content; CalculateRates := [];
      IsCustom := false |}, None).

(** A disk with two bundled plugins of version [v1] and one custom plugin
    that shares the name of a bundled one. *)
Definition sampleDisk : FileSystem :=
  {| ReadDir := fun dir =>
       if String.eqb dir "/plugins/v1" then
         ([ {| FileInfo_Name := "README"; IsDir := false |};
            {| FileInfo_Name := "mysql"; IsDir := true |};
            {| FileInfo_Name := "redis"; IsDir := true |} ], None)
       else if String.eqb dir "/custom" then
         ([ {| FileInfo_Name := "redis"; IsDir := true |} ], None)
       else ([], Some (ErrLibrary "no such file or directory"));
     ReadFile := fun file =>
       if String.eqb file "/plugins/v1/mysql/info.yml" then ("nagios", None)
       else if String.eqb file "/plugins/v1/redis/info.yml"
       then ("nagios", None)
       else if String.eqb file "/custom/redis/info.yml"
       then ("errplane", None)
       else ("", Some (ErrLibrary "no such file or directory")) |}.

(** ** The agent *)

Section Agent.

(** [strconv.ParseFloat(s, 64)]: the value and the error. *)
Variable ParseFloat : string -> float * option error.

(** [json.Unmarshal(data, &writes)] on an empty, non-nil [writes]: the
    slice afterwards and the error. *)
Variable Unmarshal : string -> option (list JsonPoints) * option error.

(** [regexp.MatchString(pattern, s)]. *)
Variable MatchString : string -> string -> bool * option error.

(** *** Output parsing *)

(** The [switch uom] of [parseNagiosOutput]: removes the unit of
    measurement from a value that is not empty. *)
Definition stripUnit (value : string) : result string :=
  let n := Go.len value in
  uom ← Go.index value (n - 1);
  match uom with
  | "s"%char =>
      c ← Go.index value (n - 2);
      match c with
      | "u"%char | "m"%char => Go.slice value 0 (n - 2)
      | _ => Go.slice value 0 (n - 1)
      end
  | "B"%char =>
      c ← Go.index value (n - 2);
      match c with
      | "K"%char | "M"%char | "G"%char => Go.slice value 0 (n - 2)
      | _ => Go.slice value 0 (n - 1)
      end
  | "%"%char | "c"%char => Go.slice value 0 (n - 1)
  | _ => Ok value
  end.

(** The body of [for key, value := range metrics]. *)
Definition reduceEntry (metricsMap : gmap string float)
    (key value : string) : result (gmap string float) :=
  value ← Go.at_ (Go.Split (Go.TrimSpace value) ";") 0;
  if (Go.len value =? 0)%Z then Ok metricsMap
  else
    value ← stripUnit value;
    let '(f, err) := ParseFloat value in
    let metricsMap := <[key := f]> metricsMap in
    match err with
    | Some _ => Ok (delete key metricsMap)
    | None => Ok metricsMap
    end.

(** The loop over the entries of [metrics], in the order [entries]. *)
Definition reduceEntries (entries : list (string * string))
  : result (gmap string float) :=
  foldl (fun acc entry => metricsMap ← acc;
                          reduceEntry metricsMap entry.1 entry.2)
        (Ok ∅) entries.

Definition reduceMetrics (metrics : gmap string string)
  : result (gmap string float) :=
  reduceEntries (map_to_list metrics).

(** [now] is what [time.Now()] reads when the output is built. *)
Definition parseNagiosOutput (now : Go.Time) (cmdState : Z)
    (firstLine : string) : result PluginOutput :=
  let firstLine := Go.TrimSpace firstLine in
  let statusAndMetrics := Go.Split firstLine "|" in
  match length statusAndMetrics with
  | 1%nat | 2%nat =>
      let exitStatus := cmdState in
      status ← Go.at_ statusAndMetrics 0;
      let status := Go.TrimSpace status in
      if (length statusAndMetrics =? 1)%nat then
        Ok {| state := exitStatus; msg := status; points := None;
              metrics := None; timestamp := now |}
      else
        metricsLine ← Go.at_ statusAndMetrics 1;
        let metricsLine := Go.TrimSpace metricsLine in
        let metrics := Tokenizer.tokenize metricsLine in
        metricsMap ← reduceMetrics metrics;
        Ok {| state := exitStatus; msg := status; points := None;
              metrics := Some metricsMap; timestamp := now |}
  | _ => Err ErrFirstLineFormat
  end.

Definition parseErrplaneOutput (now : Go.Time) (cmdState : Z)
    (firstLine : string) : result PluginOutput :=
  let exitStatus := cmdState in
  let firstLine := Go.TrimSpace firstLine in
  let statusAndMetrics := Go.Split firstLine "|" in
  status ← Go.at_ statusAndMetrics 0;
  let status := Go.TrimSpace status in
  metric ← Go.at_ statusAndMetrics 1;
  let metric := Go.TrimSpace metric in
  let '(writes, err) := Unmarshal metric in
  match err with
  | Some e => Err e
  | None =>
      Ok {| state := exitStatus; msg := status; points := writes;
            metrics := None; timestamp := now |}
  end.

Definition parsePluginOutput (now : Go.Time) (plugin : PluginMetadata)
    (cmdState : Z) (firstLine : string) : result PluginOutput :=
  let outputType := Output plugin in
  if String.eqb outputType "nagios" then
    parseNagiosOutput now cmdState firstLine
  else if String.eqb outputType "errplane" then
    parseErrplaneOutput now cmdState firstLine
  else Err (ErrUnknownOutputType outputType).

(** *** Rates of change (the end of [runPlugin]) *)

(** The inner loop [for _, metric := range plugin.CalculateRates]:
    [currentValues[name] = v] for each pattern that matches without an
    error. *)
Definition recordIfMatches (patterns : list string) (name : string)
    (v : float) (currentValues : gmap string float) : gmap string float :=
  foldl (fun currentValues metric =>
           let '(ok, err) := MatchString metric name in
           match err with
           | Some _ => currentValues
           | None => if ok then <[name := v]> currentValues
                     else currentValues
           end)
        currentValues patterns.

(** The same loop on the errplane path, which also wants a first
    point. *)
Definition recordFirstPoint (patterns : list string) (write : JsonPoints)
    (currentValues : gmap string float) : gmap string float :=
  foldl (fun currentValues metric =>
           let '(ok, err) := MatchString metric (JsonPoints_Name write) in
           match err with
           | Some _ => currentValues
           | None =>
               match ok, Points write with
               | true, point :: _ =>
                   <[JsonPoints_Name write := Value point]> currentValues
               | _, _ => currentValues
               end
           end)
        currentValues patterns.

(** The map [currentValues] once both [if output.points != nil] and
    [if output.metrics != nil] have run. *)
Definition currentValuesOf (plugin : PluginMetadata) (output : PluginOutput)
  : gmap string float :=
  let currentValues : gmap string float := ∅ in
  let currentValues :=
    match points output with
    | Some writes =>
        foldl (fun currentValues write =>
                 recordFirstPoint (CalculateRates plugin) write currentValues)
              currentValues writes
    | None => currentValues
    end in
  match metrics output with
  | Some metricsMap =>
      foldl (fun currentValues entry =>
               recordIfMatches (CalculateRates plugin) entry.1 entry.2
                               currentValues)
            currentValues (map_to_list metricsMap)
  | None => currentValues
  end.

(** The dimensions of the status point; [output.state.String()] may
    panic. *)
Definition statusDimensions (hostname : string) (instance : Instance)
    (output : PluginOutput) : result (gmap string string) :=
  status ← PluginStateOutput_String (state output);
  let dimensions : gmap string string :=
    <["status_msg" := msg output]>
      (<["status" := status]> {[ "host" := hostname ]}) in
  if String.eqb (Instance_Name instance) "" then Ok dimensions
  else Ok (<["instance" := Instance_Name instance]> dimensions).

(** From [cacheKey := ...] to the end of [runPlugin]: the rate points
    reported and [OutputCache] afterwards (the deferred [Set] runs on
    both ways out). *)
Definition calculateRates (OutputCache : gmap string PluginOutput)
    (dimensions : gmap string string) (instance : Instance)
    (plugin : PluginMetadata) (output : PluginOutput)
    (currentValues : gmap string float)
  : list Report * gmap string PluginOutput :=
  let cacheKey := Name plugin ++ "/" ++ Instance_Name instance in
  let _previousOutput := OutputCache !! cacheKey in
  let stored := <[cacheKey := output]> OutputCache in
  match _previousOutput with
  | None => ([], stored)
  | Some previousOutput =>
      let timeDiff :=
        Go.Seconds (Go.Sub (timestamp output) (timestamp previousOutput)) in
      (omap (fun entry : string * float =>
               match currentValues !! entry.1 with
               | None => None
               | Some currentValue =>
                   let diff := (currentValue - entry.2)%float in
                   let diff := (diff / timeDiff)%float in
                   Some {| report_name :=
                             "plugins." ++ Name plugin ++ "." ++ entry.1
                             ++ ".rate";
                           report_value := diff;
                           report_dimensions := dimensions |}
               end)
            (map_to_list (default ∅ (metrics previousOutput))),
       stored)
  end.

(** *** The registry *)

(** [path.Join] and [path.Base]. *)
Variable pathJoin : list string -> string.
Variable pathBase : string -> string.

(** [goyaml.Unmarshal(infoContent, &metadata)] on a zero [metadata]. *)
Variable yamlUnmarshal : string -> PluginMetadata * option error.

(** Declared outside the sources at hand: the two plugin directories,
    the installed version, and the calls of the configuration client. *)
Variable PLUGINS_DIR : string.
Variable CUSTOM_PLUGINS_DIR : string.
Variable GetInstalledPluginsVersion : FileSystem -> string * option error.
Variable osIsNotExist : error -> bool.
Variable GetCurrentPluginsVersion : string * option error.
Variable InstallPlugin : string -> FileSystem -> FileSystem.

Definition parsePluginInfo (fs : FileSystem) (dirname : string)
  : result PluginMetadata :=
  let info := pathJoin [dirname; "info.yml"] in
  let '(infoContent, err) := ReadFile fs info in
  match err with
  | Some e => Err e
  | None =>
      let '(metadata, err) := yamlUnmarshal infoContent in
      match err with
      | Some e => Err e
      | None =>
          Ok {| Name := pathBase dirname; Path := dirname;
                Output := Output metadata;
                CalculateRates := CalculateRates metadata;
                IsCustom := IsCustom metadata |}
      end
  end.

Definition withPath (plugin : PluginMetadata) (pluginDir : string)
  : PluginMetadata :=
  {| Name := Name plugin; Path := pluginDir; Output := Output plugin;
     CalculateRates := CalculateRates plugin; IsCustom := IsCustom plugin |}.

Definition getPluginsInfo (fs : FileSystem) (dir : string)
  : result (gmap string PluginMetadata) :=
  let '(infos, err) := ReadDir fs dir in
  match err with
  | Some e => Err e
  | None =>
      Ok (foldl (fun plugins info =>
                   if negb (IsDir info) then plugins
                   else
                     let dirname := FileInfo_Name info in
                     let pluginDir := pathJoin [dir; dirname] in
                     match parsePluginInfo fs pluginDir with
                     | Ok plugin =>
                         <[Name plugin := withPath plugin pluginDir]> plugins
                     | _ => plugins
                     end)
                ∅ infos)
  end.

Definition markCustom (info : PluginMetadata) : PluginMetadata :=
  {| Name := Name info; Path := Path info; Output := Output info;
     CalculateRates := CalculateRates info; IsCustom := true |}.

(** The map returned ([None] for [nil]) and the file system afterwards. *)
Definition getAvailablePlugins (fs : FileSystem)
  : option (gmap string PluginMetadata) * FileSystem :=
  let '(version, err) := GetInstalledPluginsVersion fs in
  if match err with Some e => negb (osIsNotExist e) | None => false end
  then (None, fs)
  else
    let '(latestVersion, err) := GetCurrentPluginsVersion in
    match err with
    | Some _ => (None, fs)
    | None =>
        let fs :=
          if negb (String.eqb version latestVersion)
          then InstallPlugin latestVersion fs else fs in
        let pluginsDir := pathJoin [PLUGINS_DIR; latestVersion] in
        match getPluginsInfo fs pluginsDir with
        | Ok plugins =>
            match getPluginsInfo fs CUSTOM_PLUGINS_DIR with
            | Ok customPlugins =>
                (Some (foldl (fun plugins entry =>
                                <[entry.1 := markCustom entry.2]> plugins)
                             plugins (map_to_list customPlugins)),
                 fs)
            | _ => (None, fs)
            end
        | _ => (None, fs)
        end
    end.

(** *** Running the plugins ([monitorPlugins], the start of [runPlugin]) *)

(** The arguments of the command that [runPlugin] starts:
    [instance.ArgsList], then [--name] and the value for each entry of
    [instance.Args], the entries visited in the order [entries]. *)
Definition argsIn (instance : Instance) (entries : list (string * string))
  : list string :=
  foldl (fun args entry => app args [("--" ++ entry.1)%string; entry.2])
        (ArgsList instance) entries.

Definition args (instance : Instance) : list string :=
  argsIn instance (map_to_list (Args instance)).

(** The body of [for name, instances := range config.Plugins]: the calls
    [go runPlugin(ep, instance, plugin)] it adds to those made so far.
    [plugins] is what [getAvailablePlugins] returned; looking a name up in
    a [nil] map finds nothing. *)
Definition launch (plugins : option (gmap string PluginMetadata))
    (launched : list (Instance * PluginMetadata))
    (entry : string * list Instance) : list (Instance * PluginMetadata) :=
  match default ∅ plugins !! entry.1 with
  | None => launched
  | Some plugin =>
      let instances :=
        if (length entry.2 =? 0)%nat then DEFAULT_INSTANCES else entry.2 in
      foldl (fun launched instance => app launched [(instance, plugin)])
            launched instances
  end.

(** One turn of the loop of [monitorPlugins], up to [sleep]: the
    [runPlugin] calls it starts and the file system afterwards.
    [fetched] is what [GetPluginsToRun] returned, a configuration or an
    error. *)
Definition monitorTick (previousConfig : option AgentConfiguration)
    (fetched : AgentConfiguration + error) (fs : FileSystem)
  : list (Instance * PluginMetadata) * FileSystem :=
  let config :=
    match fetched with
    | inl config => Some config
    | inr _ => previousConfig
    end in
  match config with
  | None => ([], fs)
  | Some config =>
      let '(plugins, fs) := getAvailablePlugins fs in
      (foldl (launch plugins) [] (map_to_list (Plugins config)), fs)
  end.

(** The first turns of the loop, one for each answer of
    [GetPluginsToRun]; no turn assigns [previousConfig]. *)
Fixpoint monitorTicks (previousConfig : option AgentConfiguration)
    (fetches : list (AgentConfiguration + error)) (fs : FileSystem)
  : list (list (Instance * PluginMetadata)) :=
  match fetches with
  | [] => []
  | fetched :: fetches =>
      let '(launched, fs) := monitorTick previousConfig fetched fs in
      launched :: monitorTicks previousConfig fetches fs
  end.

(** [var previousConfig *AgentConfiguration] starts [nil]. *)
Definition monitorPlugins (fetches : list (AgentConfiguration + error))
    (fs : FileSystem) : list (list (Instance * PluginMetadata)) :=
  monitorTicks None fetches fs.

(** *** Plugins offered for monitoring (the end of [checkNewPlugins]) *)

(** [exec.Command(name).Run()]: the error, if any. *)
Variable runCommand : string -> option error.

(** The map [pluginsToCheck]: the plugins found that the configuration
    does not run already, or all the plugins found when the configuration
    could not be fetched.  [plugins] is what [getAvailablePlugins]
    returned and [fetched] what [GetPluginsToRun] returned. *)
Definition pluginsToCheck (plugins : option (gmap string PluginMetadata))
    (fetched : AgentConfiguration + error)
  : option (gmap string PluginMetadata) :=
  match fetched with
  | inl pluginsToRun =>
      Some (foldl (fun pluginsToCheck entry =>
                     match Plugins pluginsToRun !! entry.1 with
                     | Some _ => pluginsToCheck
                     | None => <[entry.1 := entry.2]> pluginsToCheck
                     end)
                  ∅ (map_to_list (default ∅ plugins)))
  | inr _ => plugins
  end.

(** The slice [availablePlugins]: the names whose [should_monitor]
    command runs without an error. *)
Definition availablePlugins (pluginsToCheck : option (gmap string PluginMetadata))
  : list string :=
  foldl (fun availablePlugins entry =>
           match runCommand (pathJoin [Path entry.2; "should_monitor"]) with
           | Some _ => availablePlugins
           | None => app availablePlugins [entry.1]
           end)
        [] (map_to_list (default ∅ pluginsToCheck)).

(** *** The points of a nagios output (the middle of [runPlugin]) *)

(** The call [report] for the status: the value [1.0] under
    [plugins.<name>.status]. *)
Definition statusPoint (plugin : PluginMetadata)
    (dimensions : gmap string string) : Report :=
  {| report_name := "plugins." ++ Name plugin ++ ".status";
     report_value := 1%float; report_dimensions := dimensions |}.

(** The calls [report] of [if output.metrics != nil], one for each entry
    of the map. *)
Definition metricPoints (hostname : string) (instance : Instance)
    (plugin : PluginMetadata) (output : PluginOutput) : list Report :=
  match metrics output with
  | None => []
  | Some metricsMap =>
      let dimensions : gmap string string := {[ "host" := hostname ]} in
      let dimensions :=
        if String.eqb (Instance_Name instance) "" then dimensions
        else <["instance" := Instance_Name instance]> dimensions in
      (fun entry : string * float =>
         {| report_name := "plugins." ++ Name plugin ++ "." ++ entry.1;
            report_value := entry.2; report_dimensions := dimensions |})
        <$> map_to_list metricsMap
  end.

(** *** Notions used to state the properties *)

(** The output [out], had the clock read [now] when it was built. *)
Definition withTimestamp (now : Go.Time) (out : PluginOutput)
  : PluginOutput :=
  {| state := state out; msg := msg out; points := points out;
     metrics := metrics out; timestamp := now |}.

(** A metric name is eligible for a rate when one of the patterns
    matches it (and the match raised no error). *)
Definition matchesAny (patterns : list string) (name : string) : bool :=
  existsb (fun metric =>
             match MatchString metric name with
             | (true, None) => true
             | _ => false
             end)
          patterns.

(** The length of the unit of measurement that ends a value, in the
    words of the specification: the two-character units ([ms], [us], [KB],
    [MB], [GB]) are checked before the one-character units ([s], [B], [%],
    [c]). *)
Definition unitLength (value : string) : nat :=
  if existsb (Go.HasSuffix value) ["ms"; "us"; "KB"; "MB"; "GB"] then 2
  else if existsb (Go.HasSuffix value) ["s"; "B"; "%"; "c"] then 1
  else 0.

(** The part of a raw value before its first [';'], white space at
    both ends of the raw value removed. *)
Definition firstField (value : string) : string :=
  default "" (head (Go.Split (Go.TrimSpace value) ";")).

(** The value without its unit, in the same words. *)
Definition withoutUnit (value : string) : string :=
  Go.take (String.length value - unitLength value) value.

(** Whether a raw value, cut at its first [';'], is a bare [s] or [B]. *)
Definition bareUnit (value : string) : bool :=
  String.eqb (firstField value) "s" || String.eqb (firstField value) "B".

(** The number a raw value stands for: none when the value is empty up
    to its first [';'], or is not a number once its unit is removed. *)
Definition metricValue (value : string) : option float :=
  if String.eqb (firstField value) "" then None
  else match ParseFloat (withoutUnit (firstField value)) with
       | (f, None) => Some f
       | (_, Some _) => None
       end.

(** The piece of a line before its first ['|']. *)
Definition statusOf (firstLine : string) : string :=
  default "" (head (Go.Split (Go.TrimSpace firstLine) "|")).

(** The piece of a line between its first and its second ['|']. *)
Definition perfdataOf (firstLine : string) : string :=
  default "" (Go.Split (Go.TrimSpace firstLine) "|" !! 1%nat).

(** A byte that the tokenizer copies to its token: no quote, no ['='],
    no space. *)
Definition plainByte (c : ascii) : bool :=
  negb (Ascii.eqb c "'" || Ascii.eqb c "=" || Ascii.eqb c " ").

Fixpoint plain (s : string) : bool :=
  match s with
  | EmptyString => true
  | String c t => plainByte c && plain t
  end.

(** A name that can be written between quotes: no ['='], no space. *)
Fixpoint quotable (s : string) : bool :=
  match s with
  | EmptyString => true
  | String c t => negb (Ascii.eqb c "=" || Ascii.eqb c " ") && quotable t
  end.

(** The name with each quote doubled. *)
Fixpoint escapeQuotes (s : string) : string :=
  match s with
  | EmptyString => EmptyString
  | String c t =>
      if Ascii.eqb c "'" then String "'" (String "'" (escapeQuotes t))
      else String c (escapeQuotes t)
  end.

(** Perfdata written out: [name=value] tokens separated by a space. *)
Definition renderToken (entry : string * string) : string :=
  entry.1 ++ "=" ++ entry.2.

Definition renderPerfdata (entries : list (string * string)) : string :=
  String.concat " " (renderToken <$> entries).

(** The tokenizer inside a value, with nothing of the value kept yet but
    the token. *)
Definition inValue (name tok : string) (stored : gmap string string)
  : Tokenizer.t :=
  {| Tokenizer.metricName := name; Tokenizer.value := "";
     Tokenizer.token := tok; Tokenizer.state := Tokenizer.IN_VALUE;
     Tokenizer.metrics := stored |}.

(** The tokenizer inside the first quoted name of a line. *)
Definition inQuoted (tok : string) : Tokenizer.t :=
  {| Tokenizer.metricName := ""; Tokenizer.value := "";
     Tokenizer.token := tok; Tokenizer.state := Tokenizer.IN_QUOTED_FIELD;
     Tokenizer.metrics := ∅ |}.

(** The tokenizer with [s] written to its token. *)
Definition written (st : Tokenizer.t) (s : string) : Tokenizer.t :=
  {| Tokenizer.metricName := Tokenizer.metricName st;
     Tokenizer.value := Tokenizer.value st;
     Tokenizer.token := Tokenizer.token st ++ s;
     Tokenizer.state := Tokenizer.state st;
     Tokenizer.metrics := Tokenizer.metrics st |}.

(** The step of the loop for a byte that is not a quote. *)
Definition stepNoQuote (st : Tokenizer.t) (c : ascii) : Tokenizer.t :=
  if Ascii.eqb c "=" then Tokenizer.onEquals st
  else if Ascii.eqb c " " then Tokenizer.onSpace st
  else Tokenizer.onByte st c.

(** *** Facts about the library model *)

Ltac bool_hyps :=
  repeat match goal with
         | H : (_ && _) = true |- _ =>
             apply andb_true_iff in H; destruct H
         | H : (_ || _) = true |- _ =>
             apply orb_true_iff in H; destruct H
         | H : (_ =? _)%N = true |- _ => apply N.eqb_eq in H
         | H : (_ <=? _)%N = true |- _ => apply N.leb_le in H
         | H : (_ =? _)%nat = true |- _ => apply Nat.eqb_eq in H
         end.

Lemma Split_length (s : string) (sep : ascii) :
  length (Go.Split s sep) = S (Go.Count s sep).
Proof.
  induction s as [|c t IH]; simpl; [reflexivity|].
  destruct (Ascii.eqb c sep); simpl; [now rewrite IH|].
  destruct (Go.Split t sep) as [|piece pieces]; simpl in *; lia.
Qed.

Lemma Count_rev_append (s acc : string) (sep : ascii) :
  Go.Count (Go.rev_append s acc) sep
  = (Go.Count s sep + Go.Count acc sep)%nat.
Proof.
  revert acc; induction s as [|c t IH]; intros acc; simpl; [reflexivity|].
  rewrite IH; simpl; lia.
Qed.

Lemma Count_reverse (s : string) (sep : ascii) :
  Go.Count (Go.reverse s) sep = Go.Count s sep.
Proof. unfold Go.reverse. rewrite Count_rev_append. simpl. lia. Qed.

Lemma byte_pipe (c : ascii) : Ascii.eqb c "|" = true -> Go.byte c = 124%N.
Proof. intros H. apply Ascii.eqb_eq in H. now subst. Qed.

Lemma Count_cons_not_pipe (c : ascii) (t : string) :
  Go.byte c <> 124%N -> Go.Count (String c t) "|" = Go.Count t "|".
Proof.
  intros H. simpl. destruct (Ascii.eqb c "|") eqn:E; [|reflexivity].
  now apply byte_pipe in E.
Qed.

Lemma isAsciiSpace_not_pipe (c : ascii) :
  Go.isAsciiSpace (Go.byte c) = true -> Go.byte c <> 124%N.
Proof. unfold Go.isAsciiSpace. intros H. bool_hyps; lia. Qed.

Lemma drop_cons (k : nat) (c : ascii) (t : string) :
  Go.drop (S k) (String c t) = Go.drop k t.
Proof. reflexivity. Qed.

Lemma isSpace2_not_pipe (b1 b2 : N) :
  Go.isSpace2 b1 b2 = true -> b1 <> 124%N /\ b2 <> 124%N.
Proof. unfold Go.isSpace2. intros H. bool_hyps; lia. Qed.

Lemma isSpace3_not_pipe (b1 b2 b3 : N) :
  Go.isSpace3 b1 b2 b3 = true -> b1 <> 124%N /\ b2 <> 124%N /\ b3 <> 124%N.
Proof. unfold Go.isSpace3. intros H. bool_hyps; lia. Qed.

Lemma spaceRuneLen_pipes (s : string) (k : nat) :
  Go.spaceRuneLen s = S k ->
  Go.Count (Go.drop (S k) s) "|" = Go.Count s "|".
Proof.
  unfold Go.spaceRuneLen.
  destruct s as [|c1 t1]; [discriminate|].
  destruct (Go.isAsciiSpace (Go.byte c1)) eqn:E1.
  { intros [= <-]. apply isAsciiSpace_not_pipe in E1.
    now rewrite drop_cons, (Count_cons_not_pipe c1). }
  destruct t1 as [|c2 t2]; [discriminate|].
  destruct (Go.isSpace2 (Go.byte c1) (Go.byte c2)) eqn:E2.
  { intros [= <-]. apply isSpace2_not_pipe in E2 as [? ?].
    now rewrite !drop_cons, (Count_cons_not_pipe c1),
      (Count_cons_not_pipe c2). }
  destruct t2 as [|c3 t3]; [discriminate|].
  destruct (Go.isSpace3 (Go.byte c1) (Go.byte c2) (Go.byte c3)) eqn:E3;
    [|discriminate].
  intros [= <-]. apply isSpace3_not_pipe in E3 as (? & ? & ?).
  now rewrite !drop_cons, (Count_cons_not_pipe c1),
    (Count_cons_not_pipe c2), (Count_cons_not_pipe c3).
Qed.

Lemma spaceRuneLenRev_pipes (r : string) (k : nat) :
  Go.spaceRuneLenRev r = S k ->
  Go.Count (Go.drop (S k) r) "|" = Go.Count r "|".
Proof.
  unfold Go.spaceRuneLenRev.
  destruct r as [|c1 t1]; [discriminate|].
  destruct (Go.isAsciiSpace (Go.byte c1)) eqn:E1.
  { intros [= <-]. apply isAsciiSpace_not_pipe in E1.
    now rewrite drop_cons, (Count_cons_not_pipe c1). }
  destruct t1 as [|c2 t2]; [discriminate|].
  destruct (Go.isSpace2 (Go.byte c2) (Go.byte c1)) eqn:E2.
  { intros [= <-]. apply isSpace2_not_pipe in E2 as [? ?].
    now rewrite !drop_cons, (Count_cons_not_pipe c1),
      (Count_cons_not_pipe c2). }
  destruct t2 as [|c3 t3]; [discriminate|].
  destruct (Go.isSpace3 (Go.byte c3) (Go.byte c2) (Go.byte c1)) eqn:E3;
    [|discriminate].
  intros [= <-]. apply isSpace3_not_pipe in E3 as (? & ? & ?).
  now rewrite !drop_cons, (Count_cons_not_pipe c1),
    (Count_cons_not_pipe c2), (Count_cons_not_pipe c3).
Qed.

Lemma trimRunes_pipes (runeLen : string -> nat) :
  (forall s k, runeLen s = S k ->
               Go.Count (Go.drop (S k) s) "|" = Go.Count s "|") ->
  forall fuel s, Go.Count (Go.trimRunes runeLen fuel s) "|" = Go.Count s "|".
Proof.
  intros Hrune fuel. induction fuel as [|fuel IH]; intros s; [reflexivity|].
  cbn [Go.trimRunes]. destruct (runeLen s) as [|k] eqn:E; [reflexivity|].
  rewrite IH. now apply Hrune.
Qed.

(** Trimming removes no ['|']. *)
Lemma TrimSpace_pipes (s : string) :
  Go.Count (Go.TrimSpace s) "|" = Go.Count s "|".
Proof.
  unfold Go.TrimSpace, Go.TrimRightSpace, Go.TrimLeftSpace.
  rewrite Count_reverse, (trimRunes_pipes _ spaceRuneLenRev_pipes),
    Count_reverse.
  apply (trimRunes_pipes _ spaceRuneLen_pipes).
Qed.

Lemma drop_length (n : nat) (s : string) :
  String.length (Go.drop n s) = (String.length s - n)%nat.
Proof.
  revert s; induction n as [|n IH]; intros [|c t]; simpl; try lia.
  apply IH.
Qed.

(** The fuel [TrimSpace] gives is enough: no white space rune is left
    at either end. *)
Lemma trimRunes_done (runeLen : string -> nat) (fuel : nat) (s : string) :
  (String.length s <= fuel)%nat ->
  runeLen EmptyString = 0%nat ->
  runeLen (Go.trimRunes runeLen fuel s) = 0%nat.
Proof.
  intros Hlen Hempty. revert s Hlen.
  induction fuel as [|fuel IH]; intros s Hlen.
  - destruct s; [assumption | simpl in Hlen; lia].
  - cbn [Go.trimRunes]. destruct (runeLen s) as [|k] eqn:E; [assumption|].
    apply IH. rewrite drop_length. lia.
Qed.

Lemma TrimLeftSpace_done (s : string) :
  Go.spaceRuneLen (Go.TrimLeftSpace s) = 0%nat.
Proof. now apply trimRunes_done. Qed.

Lemma rev_append_length (s acc : string) :
  String.length (Go.rev_append s acc)
  = (String.length s + String.length acc)%nat.
Proof.
  revert acc. induction s as [|c s IH]; intros acc; [reflexivity|].
  cbn [Go.rev_append String.length]. rewrite IH. cbn [String.length]. lia.
Qed.

Lemma TrimRightSpace_done (s : string) :
  Go.spaceRuneLenRev
    (Go.trimRunes Go.spaceRuneLenRev (String.length s) (Go.reverse s))
  = 0%nat.
Proof.
  apply trimRunes_done; [|reflexivity].
  unfold Go.reverse. rewrite rev_append_length. cbn [String.length]. lia.
Qed.

Lemma Split_no_sep (s : string) (sep : ascii) :
  Go.Count s sep = 0%nat -> Go.Split s sep = [s].
Proof.
  induction s as [|c t IH]; simpl; [reflexivity|].
  destruct (Ascii.eqb c sep); [discriminate|].
  intros H. now rewrite IH.
Qed.

Lemma Split_one_sep (s : string) (sep : ascii) :
  Go.Count s sep = 1%nat ->
  exists a b, Go.Split s sep = [a; b] /\ s = a ++ String sep b
              /\ Go.Count a sep = 0%nat /\ Go.Count b sep = 0%nat.
Proof.
  induction s as [|c t IH]; simpl; [discriminate|].
  destruct (Ascii.eqb c sep) eqn:E.
  - intros [= H]. apply Ascii.eqb_eq in E. subst c.
    exists EmptyString, t. now rewrite Split_no_sep.
  - intros H. destruct (IH H) as (a & b & -> & -> & Ha & Hb).
    exists (String c a), b. simpl. now rewrite E.
Qed.

(** *** The parser, case by case *)

(** The state of a parsed output is the exit status, whatever it is. *)
Lemma parsePluginOutput_state (now : Go.Time) (plugin : PluginMetadata)
    (cmdState : Z) (firstLine : string) (out : PluginOutput) :
  parsePluginOutput now plugin cmdState firstLine = Ok out ->
  state out = cmdState.
Proof.
  unfold parsePluginOutput, parseNagiosOutput, parseErrplaneOutput.
  destruct (String.eqb (Output plugin) "nagios").
  - destruct (Go.Split (Go.TrimSpace firstLine) "|") as [|a [|b [|c l]]];
      cbn; try discriminate.
    + now intros [= <-].
    + destruct (reduceMetrics _); cbn; try discriminate.
      now intros [= <-].
  - destruct (String.eqb (Output plugin) "errplane"); [|discriminate].
    destruct (Go.Split (Go.TrimSpace firstLine) "|") as [|a [|b l]];
      cbn; try discriminate.
    destruct (Unmarshal _) as [writes [e|]]; try discriminate.
    now intros [= <-].
Qed.

(** An errplane line is decoded from its second piece alone, and a
    failure to decode is an error. *)
Lemma parseErrplaneOutput_pieces (now : Go.Time) (cmdState : Z)
    (firstLine status metric : string) (rest : list string) :
  Go.Split (Go.TrimSpace firstLine) "|" = status :: metric :: rest ->
  parseErrplaneOutput now cmdState firstLine
  = match Unmarshal (Go.TrimSpace metric) with
    | (_, Some e) => Err e
    | (writes, None) =>
        Ok {| state := cmdState; msg := Go.TrimSpace status;
              points := writes; metrics := None; timestamp := now |}
    end.
Proof.
  intros H. unfold parseErrplaneOutput. rewrite H. cbn.
  now destruct (Unmarshal _) as [writes [e|]].
Qed.

(** An errplane line without ['|'] is indexed out of range. *)
Lemma parseErrplaneOutput_no_pipe (now : Go.Time) (cmdState : Z)
    (firstLine : string) :
  Go.Count firstLine "|" = 0%nat ->
  parseErrplaneOutput now cmdState firstLine
  = Panic (IndexOutOfRange 1 1).
Proof.
  intros H. unfold parseErrplaneOutput.
  rewrite Split_no_sep by now rewrite TrimSpace_pipes.
  reflexivity.
Qed.

(** C7: a nagios line without ['|'] is a status alone, with no metrics
    map; with one ['|'], the piece on its right is read as perfdata; with
    two or more, the line is a format error and nothing is returned. *)
Theorem parseNagiosOutput_by_pipes (now : Go.Time) (cmdState : Z)
    (firstLine : string) :
  (Go.Count firstLine "|" = 0%nat ->
   parseNagiosOutput now cmdState firstLine
   = Ok {| state := cmdState; msg := Go.TrimSpace (Go.TrimSpace firstLine);
           points := None; metrics := None; timestamp := now |})
  /\ (Go.Count firstLine "|" = 1%nat ->
      exists status perfdata,
        Go.TrimSpace firstLine = status ++ "|" ++ perfdata
        /\ Go.Count status "|" = 0%nat
        /\ Go.Count perfdata "|" = 0%nat
        /\ parseNagiosOutput now cmdState firstLine
           = (metricsMap ← reduceMetrics
                             (Tokenizer.tokenize (Go.TrimSpace perfdata));
              Ok {| state := cmdState; msg := Go.TrimSpace status;
                    points := None; metrics := Some metricsMap;
                    timestamp := now |}))
  /\ ((2 <= Go.Count firstLine "|")%nat ->
      parseNagiosOutput now cmdState firstLine = Err ErrFirstLineFormat).
Proof.
  unfold parseNagiosOutput. repeat split.
  - intros H. rewrite Split_no_sep by now rewrite TrimSpace_pipes.
    reflexivity.
  - intros H. rewrite <- TrimSpace_pipes in H.
    destruct (Split_one_sep _ _ H) as (a & b & Hsplit & Hline & Ha & Hb).
    exists a, b. rewrite Hsplit. repeat split; assumption || reflexivity.
  - intros H. rewrite <- TrimSpace_pipes in H.
    pose proof (Split_length (Go.TrimSpace firstLine) "|") as Hlen.
    destruct (Go.Split (Go.TrimSpace firstLine) "|") as [|a [|b [|c l]]];
      simpl in Hlen; try lia. reflexivity.
Qed.

(** C8, as amended: two runs of the parser on the same plugin, exit
    status and line end the same way (the same error, the same panic, or
    an output each), and the two outputs agree on every field but
    [timestamp], which holds what the clock read at each run. *)
Theorem parsePluginOutput_up_to_timestamp (now1 now2 : Go.Time)
    (plugin : PluginMetadata) (cmdState : Z) (firstLine : string) :
  parsePluginOutput now2 plugin cmdState firstLine
  = withTimestamp now2 <$> parsePluginOutput now1 plugin cmdState firstLine.
Proof.
  unfold parsePluginOutput, parseNagiosOutput, parseErrplaneOutput.
  destruct (String.eqb (Output plugin) "nagios").
  - destruct (Go.Split (Go.TrimSpace firstLine) "|") as [|a [|b [|c l]]];
      cbn; try reflexivity.
    now destruct (reduceMetrics _).
  - destruct (String.eqb (Output plugin) "errplane"); [|reflexivity].
    destruct (Go.Split (Go.TrimSpace firstLine) "|") as [|a [|b l]];
      cbn; try reflexivity.
    now destruct (Unmarshal _) as [writes [e|]].
Qed.

(** C1: the code keeps the last word of a quoted name only.  The
    perfdata ['my metric'=1] is stored under [metric] and
    ['it''s fine'=2] under [fine]; the parsed outputs hold exactly one
    name each, and it is neither [my metric] nor [it's fine]. *)
Theorem quoted_name_loses_leading_words :
  Tokenizer.tokenize "'my metric'=1" = {[ "metric" := "1" ]}
  /\ Tokenizer.tokenize "'it''s fine'=2" = {[ "fine" := "2" ]}
  /\ forall (now : Go.Time) (cmdState : Z),
      parseNagiosOutput now cmdState "OK | 'my metric'=1"
      = (let '(f, err) := ParseFloat "1" in
         Ok {| state := cmdState; msg := "OK"; points := None;
               metrics := Some (match err with
                                | Some _ => ∅
                                | None => {[ "metric" := f ]}
                                end);
               timestamp := now |})
      /\ parseNagiosOutput now cmdState "OK | 'it''s fine'=2"
         = (let '(f, err) := ParseFloat "2" in
            Ok {| state := cmdState; msg := "OK"; points := None;
                  metrics := Some (match err with
                                   | Some _ => ∅
                                   | None => {[ "fine" := f ]}
                                   end);
                  timestamp := now |}).
Proof.
  split; [vm_compute; reflexivity|].
  split; [vm_compute; reflexivity|].
  intros now cmdState. split.
  - destruct (ParseFloat "1") as [f [e|]] eqn:E;
      vm_compute; rewrite E; reflexivity.
  - destruct (ParseFloat "2") as [f [e|]] eqn:E;
      vm_compute; rewrite E; reflexivity.
Qed.

(** C2: an errplane line without ['|'] makes [statusAndMetrics[1]] an
    index out of range, a panic and not a returned error; and of a line
    with more than one ['|'] the piece between the first two is decoded,
    not everything after the first. *)
Theorem parseErrplaneOutput_indexes_second_piece (now : Go.Time)
    (cmdState : Z) :
  parseErrplaneOutput now cmdState "ok" = Panic (IndexOutOfRange 1 1)
  /\ parseErrplaneOutput now cmdState "ok | [] | trailing"
     = parseErrplaneOutput now cmdState "ok | []".
Proof.
  split.
  - apply parseErrplaneOutput_no_pipe. reflexivity.
  - rewrite (parseErrplaneOutput_pieces now cmdState _ "ok " " [] "
               [" trailing"]) by reflexivity.
    rewrite (parseErrplaneOutput_pieces now cmdState _ "ok " " []" [])
      by reflexivity.
    reflexivity.
Qed.

(** C3: the state is the exit status converted, not mapped: exit
    statuses 4 and -1 give the states 4 and -1, which are none of the
    four constants and on which [String] panics, as it does when
    [runPlugin] builds the dimensions of the status point. *)
Theorem exit_status_outside_enum_is_kept (now : Go.Time) :
  parseNagiosOutput now 4 "OK"
  = Ok {| state := 4%Z; msg := "OK"; points := None; metrics := None;
          timestamp := now |}
  /\ parseNagiosOutput now (-1) "OK"
     = Ok {| state := (-1)%Z; msg := "OK"; points := None; metrics := None;
             timestamp := now |}
  /\ match parseErrplaneOutput now 4 "ok | []" with
     | Ok out => state out = 4%Z
     | Err _ => True
     | Panic _ => False
     end
  /\ (4 <> UNKNOWN /\ -1 <> UNKNOWN)%Z
  /\ PluginStateOutput_String 4%Z = Panic (UnknownState 4)
  /\ PluginStateOutput_String (-1)%Z = Panic (UnknownState (-1))
  /\ forall hostname instance,
      statusDimensions hostname instance
        {| state := 4%Z; msg := "OK"; points := None; metrics := None;
           timestamp := now |}
      = Panic (UnknownState 4).
Proof.
  repeat split; try reflexivity; try discriminate.
  rewrite (parseErrplaneOutput_pieces now 4 _ "ok " " []" [])
    by reflexivity.
  now destruct (Unmarshal _) as [writes [e|]].
Qed.

(** C10: on a value that is the single byte [s] or [B] the unit switch
    reads [value[len(value)-2]], index -1: the token [x=s] ends the
    parse in a panic, whatever the number parser. *)
Theorem bare_unit_indexes_out_of_range :
  stripUnit "s" = Panic (IndexOutOfRange (-1) 1)
  /\ stripUnit "B" = Panic (IndexOutOfRange (-1) 1)
  /\ forall (now : Go.Time) (cmdState : Z),
      parseNagiosOutput now cmdState "OK | x=s"
      = Panic (IndexOutOfRange (-1) 1).
Proof. repeat split. Qed.

(** C6: a value that cannot be a number does not always cost its own
    metric only: in [a=1 x=s] the value [s] ends the parse in a panic and
    the metric [a] is not returned. *)
Theorem bare_unit_loses_the_whole_line (now : Go.Time) (cmdState : Z) :
  parseNagiosOutput now cmdState "OK | a=1 x=s"
  = Panic (IndexOutOfRange (-1) 1).
Proof.
  destruct (ParseFloat "1") as [f [e|]] eqn:E;
    vm_compute; rewrite E; reflexivity.
Qed.

(** *** Rates *)

Lemma list_ascii_of_string_app (a b : string) :
  list_ascii_of_string (a ++ b)
  = (list_ascii_of_string a ++ list_ascii_of_string b)%list.
Proof. induction a as [|c a IH]; simpl; [reflexivity | now rewrite IH]. Qed.

Lemma append_inv_tail (a b s : string) : a ++ s = b ++ s -> a = b.
Proof.
  intros H. apply (f_equal list_ascii_of_string) in H.
  rewrite !list_ascii_of_string_app in H. apply app_inv_tail in H.
  apply (f_equal string_of_list_ascii) in H.
  now rewrite !string_of_list_ascii_of_string in H.
Qed.

Lemma rate_name_inj (pluginName name1 name2 : string) :
  "plugins." ++ pluginName ++ "." ++ name1 ++ ".rate"
  = "plugins." ++ pluginName ++ "." ++ name2 ++ ".rate" ->
  name1 = name2.
Proof.
  intros H. apply String.app_inj in H. apply String.app_inj in H.
  apply String.app_inj in H. now apply append_inv_tail in H.
Qed.

Lemma recordIfMatches_eq (patterns : list string) (name : string)
    (v : float) (currentValues : gmap string float) :
  recordIfMatches patterns name v currentValues
  = if matchesAny patterns name then <[name := v]> currentValues
    else currentValues.
Proof.
  unfold recordIfMatches, matchesAny. revert currentValues.
  induction patterns as [|metric patterns IH]; intros cv; [reflexivity|].
  cbn [foldl existsb]. rewrite IH.
  destruct (MatchString metric name) as [[|] [e|]]; cbn [orb]; try reflexivity.
  destruct (existsb _ patterns); [|reflexivity].
  apply insert_insert_eq.
Qed.

Lemma foldl_pointwise {A B : Type} (f g : A -> B -> A) (l : list B) (a : A) :
  (forall a b, f a b = g a b) -> foldl f a l = foldl g a l.
Proof.
  intros Hfg. revert a. induction l as [|b l IH]; intros a; [reflexivity|].
  cbn [foldl]. now rewrite Hfg, IH.
Qed.

(** A loop that stores the entries of a map whose key passes a test. *)
Lemma foldl_insert_if_lookup {V : Type} (test : string -> bool)
    (entries : list (string * V)) (acc : gmap string V) (k : string) :
  NoDup entries.*1 ->
  foldl (fun m entry => if test entry.1 then <[entry.1 := entry.2]> m else m)
        acc entries !! k
  = match (list_to_map entries : gmap string V) !! k with
    | Some v => if test k then Some v else acc !! k
    | None => acc !! k
    end.
Proof.
  revert acc. induction entries as [|[k1 v1] entries IH]; intros acc Hnd.
  - cbn. now rewrite lookup_empty.
  - apply NoDup_cons in Hnd as [Hk1 Hnd]. cbn [foldl fst snd].
    rewrite IH by assumption. cbn [list_to_map foldr uncurry].
    destruct (decide (k = k1)) as [->|Hne].
    + rewrite lookup_insert_eq.
      rewrite (not_elem_of_list_to_map_1 entries k1) by assumption.
      destruct (test k1); [apply lookup_insert_eq|reflexivity].
    + rewrite lookup_insert_ne by done.
      destruct (test k1); [|reflexivity].
      now rewrite lookup_insert_ne by done.
Qed.

(** On the nagios path [currentValues] holds the parsed metrics whose
    name is eligible. *)
Lemma currentValuesOf_nagios (plugin : PluginMetadata)
    (output : PluginOutput) (name : string) :
  points output = None ->
  currentValuesOf plugin output !! name
  = if matchesAny (CalculateRates plugin) name
    then default ∅ (metrics output) !! name
    else None.
Proof.
  intros Hpoints. unfold currentValuesOf. rewrite Hpoints.
  destruct (metrics output) as [metricsMap|].
  - rewrite (foldl_pointwise _
               (fun m entry =>
                  if matchesAny (CalculateRates plugin) entry.1
                  then <[entry.1 := entry.2]> m else m))
      by (intros; apply recordIfMatches_eq).
    rewrite foldl_insert_if_lookup by apply NoDup_fst_map_to_list.
    rewrite list_to_map_to_list, lookup_empty. cbn [default id].
    destruct (metricsMap !! name), (matchesAny _ name); reflexivity.
  - cbn [default]. rewrite lookup_empty. now destruct (matchesAny _ name).
Qed.

(** C5: the rate tracker.  The entry of the key is replaced by the
    current output in every case; a key seen for the first time gives no
    rate; otherwise a rate point is reported exactly for the names that
    the previous metrics and the current values share, valued
    (current - previous) / seconds between the two timestamps; the
    current values are the eligible names of the current metrics; and
    [x] at 10 then at 20 four seconds later has rate 2.5. *)
Theorem calculateRates_update (OutputCache : gmap string PluginOutput)
    (dimensions : gmap string string) (instance : Instance)
    (plugin : PluginMetadata) (output : PluginOutput) :
  let cacheKey := Name plugin ++ "/" ++ Instance_Name instance in
  let currentValues := currentValuesOf plugin output in
  let update :=
    calculateRates OutputCache dimensions instance plugin output
                   currentValues in
  update.2 = <[cacheKey := output]> OutputCache
  /\ (OutputCache !! cacheKey = None -> update.1 = [])
  /\ (forall previousOutput,
        OutputCache !! cacheKey = Some previousOutput ->
        let timeDiff :=
          Go.Seconds (Go.Sub (timestamp output)
                             (timestamp previousOutput)) in
        (forall report,
           report ∈ update.1 ->
           exists name rate,
             report
             = {| report_name :=
                    "plugins." ++ Name plugin ++ "." ++ name ++ ".rate";
                  report_value := rate;
                  report_dimensions := dimensions |})
        /\ forall name rate,
             {| report_name :=
                  "plugins." ++ Name plugin ++ "." ++ name ++ ".rate";
                report_value := rate;
                report_dimensions := dimensions |} ∈ update.1
             <-> exists previous current,
                 default ∅ (metrics previousOutput) !! name = Some previous
                 /\ currentValues !! name = Some current
                 /\ rate = ((current - previous) / timeDiff)%float)
  /\ (points output = None ->
      forall name,
        currentValues !! name
        = if matchesAny (CalculateRates plugin) name
          then default ∅ (metrics output) !! name
          else None)
  /\ (let sample value at_ :=
        {| state := OK; msg := "OK"; points := None;
           metrics := Some {[ "x" := value ]}; timestamp := at_ |} in
      let p := {| Name := "p"; Path := "/plugins/p"; Output := "nagios";
                  CalculateRates := ["x"]; IsCustom := false |} in
      let i := {| Instance_Name := ""; ArgsList := []; Args := ∅ |} in
      (calculateRates {[ "p/" := sample 10%float 0%Z ]} ∅ i p
                      (sample 20%float 4000000000%Z)
                      {[ "x" := 20%float ]}).1
      = [ {| report_name := "plugins.p.x.rate";
             report_value := 2.5%float; report_dimensions := ∅ |} ]).
Proof.
  intros cacheKey currentValues update. subst update.
  unfold calculateRates. fold cacheKey.
  split; [now destruct (OutputCache !! cacheKey)|].
  split; [now intros ->|].
  split; [|split; [intros Hpoints name; now apply currentValuesOf_nagios
                  |reflexivity]].
  intros previousOutput Hprevious. cbv zeta. rewrite Hprevious. cbn [fst].
  split.
  - intros report Hin.
    apply list_elem_of_omap in Hin as ([name previous] & _ & Hreport).
    cbn [fst snd] in Hreport.
    destruct (currentValues !! name) as [current|]; [|discriminate].
    injection Hreport as <-. now eexists _, _.
  - intros name rate. split.
    + intros Hin.
      apply list_elem_of_omap in Hin as ([name' previous] & Hentry & Hreport).
      apply elem_of_map_to_list in Hentry. cbn [fst snd] in Hreport.
      destruct (currentValues !! name') as [current|] eqn:Hcurrent;
        [|discriminate].
      apply (inj Some) in Hreport.
      pose proof (f_equal report_name Hreport) as Hname.
      pose proof (f_equal report_value Hreport) as Hrate.
      cbn [report_name report_value] in Hname, Hrate.
      apply rate_name_inj in Hname. subst name'.
      now exists previous, current.
    + intros (previous & current & Hprev & Hcurrent & ->).
      apply list_elem_of_omap. exists (name, previous).
      split; [now apply elem_of_map_to_list|].
      cbn [fst snd]. now rewrite Hcurrent.
Qed.

(** *** The registry *)

(** A loop that stores every entry of a map, transformed. *)
Lemma foldl_insert_all_lookup {V : Type} (f : V -> V)
    (entries : list (string * V)) (acc : gmap string V) (k : string) :
  NoDup entries.*1 ->
  foldl (fun m entry => <[entry.1 := f entry.2]> m) acc entries !! k
  = match (list_to_map entries : gmap string V) !! k with
    | Some v => Some (f v)
    | None => acc !! k
    end.
Proof.
  revert acc. induction entries as [|[k1 v1] entries IH]; intros acc Hnd.
  - cbn. now rewrite lookup_empty.
  - apply NoDup_cons in Hnd as [Hk1 Hnd]. cbn [foldl fst snd].
    rewrite IH by assumption. cbn [list_to_map foldr uncurry].
    destruct (decide (k = k1)) as [->|Hne].
    + cbn [fst snd]. rewrite !lookup_insert_eq.
      now rewrite (not_elem_of_list_to_map_1 entries k1) by assumption.
    + rewrite lookup_insert_ne by done.
      now rewrite lookup_insert_ne by done.
Qed.

(** C9: when the registry is resolved, a name that the custom
    directory binds is bound to the custom metadata, whole, with
    [IsCustom] set, whatever the bundled directory binds it to; the other
    names keep their bundled metadata; and no name is bound twice. *)
Theorem getAvailablePlugins_custom_wins (fs fs' : FileSystem)
    (merged : gmap string PluginMetadata) :
  getAvailablePlugins fs = (Some merged, fs') ->
  exists plugins customPlugins,
    getPluginsInfo fs' (pathJoin [PLUGINS_DIR; GetCurrentPluginsVersion.1])
    = Ok plugins
    /\ getPluginsInfo fs' CUSTOM_PLUGINS_DIR = Ok customPlugins
    /\ (forall name bundled custom,
          plugins !! name = Some bundled ->
          customPlugins !! name = Some custom ->
          merged !! name = Some (markCustom custom)
          /\ IsCustom (markCustom custom) = true
          /\ Name (markCustom custom) = Name custom
          /\ Path (markCustom custom) = Path custom
          /\ Output (markCustom custom) = Output custom
          /\ CalculateRates (markCustom custom) = CalculateRates custom)
    /\ (forall name,
          merged !! name
          = match customPlugins !! name with
            | Some custom => Some (markCustom custom)
            | None => plugins !! name
            end)
    /\ (forall name info1 info2,
          (name, info1) ∈ map_to_list merged ->
          (name, info2) ∈ map_to_list merged ->
          info1 = info2).
Proof.
  unfold getAvailablePlugins.
  destruct (GetInstalledPluginsVersion fs) as [version err].
  destruct (match err with
            | Some e => negb (osIsNotExist e)
            | None => false
            end); [discriminate|].
  destruct GetCurrentPluginsVersion as [latestVersion [e|]];
    [discriminate|].
  cbn [fst].
  set (fs1 := if negb (version =? latestVersion)%string
              then InstallPlugin latestVersion fs else fs).
  destruct (getPluginsInfo fs1 (pathJoin [PLUGINS_DIR; latestVersion]))
    as [plugins| |] eqn:Hplugins; try discriminate.
  destruct (getPluginsInfo fs1 CUSTOM_PLUGINS_DIR)
    as [customPlugins| |] eqn:Hcustom; try discriminate.
  intros [= <- <-]. exists plugins, customPlugins.
  assert (Hlookup : forall name,
             foldl (fun plugins entry =>
                      <[entry.1 := markCustom entry.2]> plugins)
                   plugins (map_to_list customPlugins) !! name
             = match customPlugins !! name with
               | Some custom => Some (markCustom custom)
               | None => plugins !! name
               end).
  { intros name.
    rewrite (foldl_insert_all_lookup markCustom)
      by apply NoDup_fst_map_to_list.
    now rewrite list_to_map_to_list. }
  split; [assumption|]. split; [assumption|].
  split; [|split; [exact Hlookup|]].
  - intros name bundled custom _ Hname. rewrite Hlookup, Hname.
    repeat split.
  - intros name info1 info2 H1 H2.
    apply elem_of_map_to_list in H1, H2. congruence.
Qed.

(** *** The unit switch *)

Lemma length_app (a b : string) :
  String.length (a ++ b) = (String.length a + String.length b)%nat.
Proof. induction a as [|c a IH]; simpl; [reflexivity | now rewrite IH]. Qed.

Lemma get_app_length (a : string) (c : ascii) (t : string) :
  String.get (String.length a) (a ++ String c t) = Some c.
Proof. induction a as [|d a IH]; simpl; [reflexivity | exact IH]. Qed.

Lemma take_app_length (a b : string) : Go.take (String.length a) (a ++ b) = a.
Proof.
  induction a as [|c a IH]; simpl; [now destruct b | now rewrite IH].
Qed.

Lemma take_length (a : string) : Go.take (String.length a) a = a.
Proof. induction a as [|c a IH]; simpl; [reflexivity | now rewrite IH]. Qed.

Lemma rev_append_app (a b acc : string) :
  Go.rev_append (a ++ b) acc = Go.rev_append b (Go.rev_append a acc).
Proof.
  revert acc. induction a as [|c a IH]; intros acc; simpl; [reflexivity|].
  apply IH.
Qed.

Lemma append_assoc (a b c : string) : (a ++ b) ++ c = a ++ (b ++ c).
Proof.
  induction a as [|d a IH]; [reflexivity|].
  change (String d ((a ++ b) ++ c) = String d (a ++ (b ++ c))).
  now rewrite IH.
Qed.

(** A string is empty, one byte, or a body followed by two bytes. *)
Lemma last_two_bytes (s : string) :
  s = "" \/ (exists c, s = String c "")
  \/ exists body c2 c1, s = body ++ String c2 (String c1 "").
Proof.
  induction s as [|c s IH]; [now left|]. right.
  destruct IH as [->|[[d ->]|(body & c2 & c1 & ->)]].
  - left. now exists c.
  - right. now exists "", c, d.
  - right. now exists (String c body), c2, c1.
Qed.

Section TwoBytes.

Variables (body : string) (c2 c1 : ascii).

Let v : string := body ++ String c2 (String c1 "").

Lemma len_two_bytes : Go.len v = (Z.of_nat (String.length body) + 2)%Z.
Proof. unfold Go.len, v. rewrite length_app. simpl. lia. Qed.

Lemma index_last : Go.index v (Go.len v - 1) = Ok c1.
Proof.
  rewrite len_two_bytes. unfold Go.index.
  destruct (Z.ltb_spec (Z.of_nat (String.length body) + 2 - 1) 0); [lia|].
  replace (Z.to_nat (Z.of_nat (String.length body) + 2 - 1))
    with (String.length (body ++ String c2 "")) by (rewrite length_app; simpl; lia).
  unfold v.
  replace (body ++ String c2 (String c1 ""))
    with ((body ++ String c2 "") ++ String c1 "")
    by now rewrite append_assoc.
  now rewrite get_app_length.
Qed.

Lemma index_before_last : Go.index v (Go.len v - 2) = Ok c2.
Proof.
  rewrite len_two_bytes. unfold Go.index.
  destruct (Z.ltb_spec (Z.of_nat (String.length body) + 2 - 2) 0); [lia|].
  replace (Z.to_nat (Z.of_nat (String.length body) + 2 - 2))
    with (String.length body) by lia.
  unfold v. now rewrite get_app_length.
Qed.

Lemma slice_but_last : Go.slice v 0 (Go.len v - 1) = Ok (body ++ String c2 "").
Proof.
  unfold Go.slice. cbn [Z.ltb Z.compare].
  destruct (Z.ltb_spec (Go.len v) (Go.len v - 1)); [lia|].
  destruct (Z.ltb_spec (Go.len v - 1) 0);
    [rewrite len_two_bytes in *; lia|].
  rewrite len_two_bytes. change (Z.to_nat 0) with 0%nat. cbn [Go.drop].
  replace (Z.to_nat (Z.of_nat (String.length body) + 2 - 1 - 0))
    with (String.length (body ++ String c2 "")) by (rewrite length_app; simpl; lia).
  unfold v.
  replace (body ++ String c2 (String c1 ""))
    with ((body ++ String c2 "") ++ String c1 "")
    by now rewrite append_assoc.
  now rewrite take_app_length.
Qed.

Lemma slice_but_last_two : Go.slice v 0 (Go.len v - 2) = Ok body.
Proof.
  unfold Go.slice. cbn [Z.ltb Z.compare].
  destruct (Z.ltb_spec (Go.len v) (Go.len v - 2)); [lia|].
  destruct (Z.ltb_spec (Go.len v - 2) 0);
    [rewrite len_two_bytes in *; lia|].
  rewrite len_two_bytes. change (Z.to_nat 0) with 0%nat. cbn [Go.drop].
  replace (Z.to_nat (Z.of_nat (String.length body) + 2 - 2 - 0))
    with (String.length body) by lia.
  unfold v. now rewrite take_app_length.
Qed.

End TwoBytes.

Lemma take_two_bytes (body : string) (c2 c1 : ascii) :
  let v := body ++ String c2 (String c1 "") in
  Go.take (String.length v - 0) v = v
  /\ Go.take (String.length v - 1) v = body ++ String c2 ""
  /\ Go.take (String.length v - 2) v = body.
Proof.
  cbv zeta. repeat split.
  - rewrite Nat.sub_0_r. apply take_length.
  - rewrite length_app. cbn [String.length].
    replace (String.length body + 2 - 1)%nat
      with (String.length (body ++ String c2 ""))
      by (rewrite length_app; simpl; lia).
    change (String c2 (String c1 "")) with (String c2 "" ++ String c1 "").
    rewrite <- append_assoc. apply take_app_length.
  - rewrite length_app. cbn [String.length].
    replace (String.length body + 2 - 2)%nat with (String.length body) by lia.
    apply take_app_length.
Qed.

Lemma prefix_empty (s : string) : String.prefix "" s = true.
Proof. now destruct s. Qed.

(** The unit of a value is decided by its last two bytes. *)
Lemma unitLength_two_bytes (body : string) (c2 c1 : ascii) :
  unitLength (body ++ String c2 (String c1 ""))
  = unitLength (String c2 (String c1 "")).
Proof.
  unfold unitLength, Go.HasSuffix, Go.reverse.
  rewrite rev_append_app.
  cbn [existsb String.prefix Go.rev_append].
  now rewrite !prefix_empty.
Qed.

Ltac unit_case :=
  cbv match;
  match goal with
  | |- context [unitLength ?s] =>
      let k := eval vm_compute in (unitLength s) in
      change (unitLength s) with k
  end;
  first [ apply (f_equal Ok); symmetry; apply take_two_bytes ].

(** The unit switch refines the specification's words on every value but
    the bare [s] and the bare [B]: it never indexes out of range there,
    and what it leaves is the value without its unit. *)
Lemma stripUnit_withoutUnit (value : string) :
  value <> "" -> value <> "s" -> value <> "B" ->
  stripUnit value = Ok (withoutUnit value).
Proof.
  intros Hempty Hs HB.
  destruct (last_two_bytes value) as [->|[[c ->]|(body & c2 & c1 & ->)]].
  - contradiction.
  - destruct c as [[] [] [] [] [] [] [] []];
      first [reflexivity | contradiction].
  - clear Hempty Hs HB.
    unfold stripUnit. rewrite index_last. cbn [mbind result_bind].
    rewrite index_before_last, slice_but_last, slice_but_last_two.
    cbn [mbind result_bind].
    unfold withoutUnit. rewrite unitLength_two_bytes.
    destruct c1 as [[] [] [] [] [] [] [] []];
      first [ unit_case
            | destruct c2 as [[] [] [] [] [] [] [] []]; unit_case ].
Qed.

(** *** The loop over the metrics *)

Lemma Split_first (s : string) (sep : ascii) :
  Go.at_ (Go.Split s sep) 0 = Ok (default "" (head (Go.Split s sep))).
Proof.
  pose proof (Split_length s sep) as Hlen.
  destruct (Go.Split s sep); [discriminate | reflexivity].
Qed.

Lemma len_zero (s : string) : (Go.len s =? 0)%Z = true <-> s = "".
Proof.
  unfold Go.len. destruct s as [|c s]; [now split|].
  split; [|discriminate].
  intros H. apply Z.eqb_eq in H. cbn [String.length] in H. lia.
Qed.

(** What one iteration does: nothing for an empty value, a panic for a
    bare [s] or [B], and otherwise the number of the value without its
    unit is stored, or the key removed when it is not a number. *)
Lemma reduceEntry_cases (metricsMap : gmap string float) (key value : string) :
  reduceEntry metricsMap key value
  = if String.eqb (firstField value) "" then Ok metricsMap
    else if String.eqb (firstField value) "s"
            || String.eqb (firstField value) "B"
    then Panic (IndexOutOfRange (-1) 1)
    else let '(f, err) := ParseFloat (withoutUnit (firstField value)) in
         match err with
         | Some _ => Ok (delete key (<[key := f]> metricsMap))
         | None => Ok (<[key := f]> metricsMap)
         end.
Proof.
  unfold reduceEntry. rewrite Split_first. fold (firstField value).
  cbn [mbind result_bind].
  destruct (String.eqb_spec (firstField value) "") as [->|Hempty];
    [reflexivity|].
  destruct (Go.len (firstField value) =? 0)%Z eqn:Hlen;
    [now apply len_zero in Hlen|].
  destruct (String.eqb_spec (firstField value) "s") as [->|Hs];
    [reflexivity|].
  destruct (String.eqb_spec (firstField value) "B") as [->|HB];
    [reflexivity|].
  rewrite stripUnit_withoutUnit by assumption.
  cbn [mbind result_bind orb].
  now destruct (ParseFloat _) as [f [e|]].
Qed.

(** Two iterations on different keys can be exchanged. *)
Lemma reduceEntry_exchange (acc : result (gmap string float))
    (key1 value1 key2 value2 : string) :
  key1 <> key2 ->
  (acc ≫= (fun m => reduceEntry m key1 value1))
    ≫= (fun m => reduceEntry m key2 value2)
  = (acc ≫= (fun m => reduceEntry m key2 value2))
      ≫= (fun m => reduceEntry m key1 value1).
Proof.
  intros Hne. destruct acc as [m| |]; try reflexivity. cbn [mbind result_bind].
  rewrite (reduceEntry_cases m key1), (reduceEntry_cases m key2).
  destruct (String.eqb (firstField value1) "") eqn:E1,
           (String.eqb (firstField value2) "") eqn:E2,
           (String.eqb (firstField value1) "s"
            || String.eqb (firstField value1) "B") eqn:P1,
           (String.eqb (firstField value2) "s"
            || String.eqb (firstField value2) "B") eqn:P2,
           (ParseFloat (withoutUnit (firstField value1)))
             as [f1 [e1|]] eqn:F1,
           (ParseFloat (withoutUnit (firstField value2)))
             as [f2 [e2|]] eqn:F2;
    cbn [mbind result_bind];
    rewrite ?reduceEntry_cases, ?E1, ?E2, ?P1, ?P2, ?F1, ?F2;
    try reflexivity;
    f_equal; apply map_eq; intros k;
    repeat (rewrite lookup_insert || rewrite lookup_delete);
    repeat case_decide; congruence.
Qed.

(** The result of the loop does not depend on the order in which the
    entries of the map are visited. *)
Lemma reduceEntries_order (entries1 entries2 : list (string * string)) :
  NoDup entries1.*1 -> entries1 ≡ₚ entries2 ->
  reduceEntries entries1 = reduceEntries entries2.
Proof.
  unfold reduceEntries. generalize (Ok ∅ : result (gmap string float)).
  intros acc Hnodup Hperm. revert acc Hnodup.
  induction Hperm as [|entry l1 l2 Hperm IH|entry1 entry2 l|l1 l2 l3 H12 IH12 H23 IH23];
    intros acc Hnodup.
  - reflexivity.
  - cbn [foldl]. apply IH. cbn in Hnodup. now apply NoDup_cons in Hnodup.
  - cbn [foldl]. f_equal. apply reduceEntry_exchange.
    cbn in Hnodup. apply NoDup_cons in Hnodup as [Hnotin _].
    intros Heq. apply Hnotin. rewrite Heq. left.
  - rewrite IH12 by assumption. apply IH23.
    assert (Hfst : l1.*1 ≡ₚ l2.*1) by now apply fmap_Permutation.
    now rewrite <- Hfst.
Qed.

(** X19: the loop over the raw metrics gives the same result (the same
    map, or the same panic) for every order in which the entries of the map
    are visited. *)
Lemma reduceMetrics_order (metrics : gmap string string)
    (entries : list (string * string)) :
  entries ≡ₚ map_to_list metrics ->
  reduceEntries entries = reduceMetrics metrics.
Proof.
  intros Hperm. unfold reduceMetrics. symmetry.
  apply reduceEntries_order; [apply NoDup_fst_map_to_list | now symmetry].
Qed.

(** The four examples of the specification: the number parser is handed
    the value without its thresholds and without its unit. *)
Lemma perfdata_units (now : Go.Time) (cmdState : Z)
    (hundred five half ten : float) :
  ParseFloat "100" = (hundred, None) ->
  ParseFloat "5" = (five, None) ->
  ParseFloat "0.5" = (half, None) ->
  ParseFloat "10" = (ten, None) ->
  let parsed perfdata value :=
    Ok {| state := cmdState; msg := "OK"; points := None;
          metrics := Some {[ perfdata := value ]}; timestamp := now |} in
  parseNagiosOutput now cmdState "OK | time=100ms;;;;" = parsed "time" hundred
  /\ parseNagiosOutput now cmdState "OK | time=5s" = parsed "time" five
  /\ parseNagiosOutput now cmdState "OK | load=0.5%" = parsed "load" half
  /\ parseNagiosOutput now cmdState "OK | mem=10MB" = parsed "mem" ten.
Proof.
  intros H100 H5 Hhalf H10 parsed. subst parsed.
  repeat split; vm_compute;
    rewrite ?H100, ?H5, ?Hhalf, ?H10; reflexivity.
Qed.

(** *** What a parse returns *)

Lemma reduce_stuck (entries : list (string * string))
    (acc : result (gmap string float)) :
  (forall metricsMap, acc <> Ok metricsMap) ->
  foldl (fun acc entry => metricsMap ← acc;
                          reduceEntry metricsMap entry.1 entry.2)
        acc entries = acc.
Proof.
  intros Hacc. induction entries as [|entry entries IH]; [reflexivity|].
  cbn [foldl]. destruct acc as [m| |]; [now destruct (Hacc m)|exact IH..].
Qed.

(** The loop from any map [acc]: a bare unit among the values ends it in
    the panic; otherwise each key holds what its value stands for. *)
Lemma reduce_from (entries : list (string * string))
    (acc : gmap string float) :
  NoDup entries.*1 ->
  (existsb (fun entry => bareUnit entry.2) entries = true
   /\ foldl (fun acc entry => metricsMap ← acc;
                              reduceEntry metricsMap entry.1 entry.2)
            (Ok acc) entries = Panic (IndexOutOfRange (-1) 1))
  \/ (existsb (fun entry => bareUnit entry.2) entries = false
      /\ exists metricsMap,
          foldl (fun acc entry => metricsMap ← acc;
                                  reduceEntry metricsMap entry.1 entry.2)
                (Ok acc) entries = Ok metricsMap
          /\ forall key,
              metricsMap !! key
              = match (list_to_map entries : gmap string string) !! key with
                | Some value =>
                    if String.eqb (firstField value) "" then acc !! key
                    else metricValue value
                | None => acc !! key
                end).
Proof.
  revert acc. induction entries as [|[key1 value1] entries IH];
    intros acc Hnodup.
  - right. split; [reflexivity|]. exists acc. split; [reflexivity|].
    intros key. cbn. now rewrite lookup_empty.
  - apply NoDup_cons in Hnodup as [Hfresh Hnodup].
    cbn [foldl existsb fst snd mbind result_bind].
    rewrite reduceEntry_cases. unfold bareUnit at 1 3.
    destruct (String.eqb (firstField value1) "") eqn:Hempty.
    { apply String.eqb_eq in Hempty.
      assert (Hbare : String.eqb (firstField value1) "s"
                      || String.eqb (firstField value1) "B" = false)
        by now rewrite Hempty.
      rewrite Hbare. cbn [orb].
      destruct (IH acc Hnodup) as [[Hex Hpanic]|(Hex & m & Hm & Hlookup)].
      - left. now split.
      - right. split; [exact Hex|]. exists m. split; [exact Hm|].
        intros key. rewrite Hlookup. cbn [list_to_map foldr uncurry fst snd].
        destruct (decide (key = key1)) as [->|Hne].
        + rewrite lookup_insert_eq.
          rewrite (not_elem_of_list_to_map_1 entries key1) by assumption.
          now rewrite Hempty.
        + now rewrite lookup_insert_ne by done. }
    destruct (String.eqb (firstField value1) "s"
              || String.eqb (firstField value1) "B") eqn:Hbare.
    { left. split; [reflexivity|]. now apply reduce_stuck. }
    cbn [orb].
    assert (Hstep : exists acc1,
               (let '(f, err) := ParseFloat (withoutUnit (firstField value1)) in
                match err with
                | Some _ => Ok (delete key1 (<[key1:=f]> acc))
                | None => Ok (<[key1:=f]> acc)
                end) = Ok acc1
               /\ acc1 !! key1 = metricValue value1
               /\ forall key, key <> key1 -> acc1 !! key = acc !! key).
    { unfold metricValue. rewrite Hempty.
      destruct (ParseFloat _) as [f [e|]]; eexists; (split; [reflexivity|]).
      - split; [now rewrite lookup_delete_eq|].
        intros key Hne. rewrite lookup_delete_ne by done.
        now rewrite lookup_insert_ne by done.
      - split; [now rewrite lookup_insert_eq|].
        intros key Hne. now rewrite lookup_insert_ne by done. }
    destruct Hstep as (acc1 & -> & Hkey1 & Hother).
    destruct (IH acc1 Hnodup) as [[Hex Hpanic]|(Hex & m & Hm & Hlookup)].
    + left. now split.
    + right. split; [exact Hex|]. exists m. split; [exact Hm|].
      intros key. rewrite Hlookup. cbn [list_to_map foldr uncurry fst snd].
      destruct (decide (key = key1)) as [->|Hne].
      * rewrite lookup_insert_eq.
        rewrite (not_elem_of_list_to_map_1 entries key1) by assumption.
        now rewrite Hkey1, Hempty.
      * rewrite lookup_insert_ne by done.
        destruct (list_to_map entries !! key) as [value|];
          [destruct (String.eqb (firstField value) "")|];
          auto.
Qed.

Lemma reduceMetrics_cases (metrics : gmap string string) :
  ((exists key value, metrics !! key = Some value /\ bareUnit value = true)
   /\ reduceMetrics metrics = Panic (IndexOutOfRange (-1) 1))
  \/ ((forall key value, metrics !! key = Some value -> bareUnit value = false)
      /\ exists metricsMap,
          reduceMetrics metrics = Ok metricsMap
          /\ forall key, metricsMap !! key = metrics !! key ≫= metricValue).
Proof.
  unfold reduceMetrics, reduceEntries.
  destruct (reduce_from (map_to_list metrics) ∅ (NoDup_fst_map_to_list _))
    as [[Hex Hpanic]|(Hex & m & Hm & Hlookup)].
  - left. split; [|exact Hpanic].
    apply existsb_exists in Hex as ([key value] & Hin & Hbare).
    exists key, value. split; [|exact Hbare].
    apply elem_of_map_to_list. now apply list_elem_of_In.
  - right. split.
    + intros key value Hkey.
      destruct (bareUnit value) eqn:Hbare; [|reflexivity].
      rewrite <- Hex. symmetry. apply existsb_exists.
      exists (key, value). split; [|exact Hbare].
      apply list_elem_of_In. now apply elem_of_map_to_list.
    + exists m. split; [exact Hm|]. intros key. rewrite Hlookup.
      rewrite list_to_map_to_list, lookup_empty.
      destruct (metrics !! key) as [value|]; [|reflexivity].
      cbn [mbind option_bind]. unfold metricValue.
      now destruct (String.eqb (firstField value) "").
Qed.

(** The pieces of a split: the text before the first separator, and the
    pieces of what follows it. *)
Lemma Split_first_sep (s : string) (sep : ascii) :
  (1 <= Go.Count s sep)%nat ->
  exists a rest, s = a ++ String sep rest /\ Go.Count a sep = 0%nat
                 /\ Go.Split s sep = a :: Go.Split rest sep.
Proof.
  induction s as [|c s IH]; cbn [Go.Count Go.Split]; [lia|].
  destruct (Ascii.eqb c sep) eqn:E.
  - intros _. apply Ascii.eqb_eq in E. subst c. now exists "", s.
  - intros H. destruct (IH H) as (a & rest & -> & Ha & ->).
    exists (String c a), rest. cbn [Go.Count]. rewrite E. now split.
Qed.

Lemma Split_head_no_sep (s : string) (sep : ascii) :
  exists a rest, Go.Split s sep = a :: rest /\ Go.Count a sep = 0%nat
                 /\ (rest = [] -> s = a).
Proof.
  destruct (Go.Count s sep) as [|n] eqn:Hcount.
  - exists s, []. now rewrite Split_no_sep.
  - destruct (Split_first_sep s sep) as (a & tail & -> & Ha & ->); [lia|].
    exists a, (Go.Split tail sep). split; [reflexivity|]. split; [exact Ha|].
    intros Hnil. pose proof (Split_length tail sep) as Hlen.
    rewrite Hnil in Hlen. discriminate.
Qed.

Lemma parseNagiosOutput_by_count (now : Go.Time) (cmdState : Z)
    (firstLine : string) :
  parseNagiosOutput now cmdState firstLine
  = match Go.Count firstLine "|" with
    | 0%nat =>
        Ok {| state := cmdState; msg := Go.TrimSpace (statusOf firstLine);
              points := None; metrics := None; timestamp := now |}
    | 1%nat =>
        metricsMap ← reduceMetrics
                       (Tokenizer.tokenize (Go.TrimSpace (perfdataOf firstLine)));
        Ok {| state := cmdState; msg := Go.TrimSpace (statusOf firstLine);
              points := None; metrics := Some metricsMap; timestamp := now |}
    | _ => Err ErrFirstLineFormat
    end.
Proof.
  unfold parseNagiosOutput, statusOf, perfdataOf.
  pose proof (Split_length (Go.TrimSpace firstLine) "|") as Hlen.
  rewrite TrimSpace_pipes in Hlen.
  destruct (Go.Split (Go.TrimSpace firstLine) "|") as [|a [|b [|c l]]];
    cbn [length] in Hlen; try discriminate; injection Hlen as <-; reflexivity.
Qed.

(** X1: a parsed output carries the exit status as its state and the
    clock's reading as its timestamp, and never both points and metrics:
    a nagios output has no points, and has a metrics map exactly when the
    line has a ['|']; an errplane output has no metrics map. *)
Theorem parsePluginOutput_shape (now : Go.Time) (plugin : PluginMetadata)
    (cmdState : Z) (firstLine : string) (out : PluginOutput) :
  parsePluginOutput now plugin cmdState firstLine = Ok out ->
  state out = cmdState
  /\ timestamp out = now
  /\ ((Output plugin = "nagios" /\ points out = None
       /\ (metrics out = None <-> Go.Count firstLine "|" = 0%nat))
      \/ (Output plugin = "errplane" /\ metrics out = None
          /\ (1 <= Go.Count firstLine "|")%nat)).
Proof.
  unfold parsePluginOutput.
  destruct (String.eqb_spec (Output plugin) "nagios") as [Hnagios|_].
  - rewrite parseNagiosOutput_by_count.
    destruct (Go.Count firstLine "|") as [|[|n]];
      [| |intros H; discriminate H].
    + intros [= <-]. cbn. split; [reflexivity|]. split; [reflexivity|].
      left. now repeat split.
    + destruct (reduceMetrics _) as [m| |]; try discriminate.
      intros [= <-]. cbn. split; [reflexivity|]. split; [reflexivity|].
      left. split; [exact Hnagios|]. split; [reflexivity|].
      split; intros H; discriminate H.
  - destruct (String.eqb_spec (Output plugin) "errplane") as [Herrplane|_];
      [|discriminate].
    destruct (Go.Count firstLine "|") as [|n] eqn:Hcount.
    + now rewrite parseErrplaneOutput_no_pipe.
    + rewrite <- TrimSpace_pipes in Hcount.
      destruct (Split_first_sep (Go.TrimSpace firstLine) "|")
        as (a & rest & _ & _ & Hsplit); [lia|].
      destruct (Split_head_no_sep rest "|") as (b & l & Hrest & _).
      rewrite Hrest in Hsplit.
      rewrite (parseErrplaneOutput_pieces now cmdState _ a b l Hsplit).
      destruct (Unmarshal _) as [writes [e|]]; [discriminate|].
      intros [= <-]. cbn. split; [reflexivity|]. split; [reflexivity|].
      right. split; [exact Herrplane|]. split; [reflexivity|lia].
Qed.

(** X2: an errplane line with a ['|'] never panics.  The message is the
    trimmed text before the first ['|']; the text between the first and
    the second ['|'] (or the end of the line), trimmed, goes to the
    decoder, whose error is returned as it is; on success the decoded
    writes are the points and there is no metrics map. *)
Theorem parseErrplaneOutput_with_pipe (now : Go.Time) (cmdState : Z)
    (firstLine : string) :
  (1 <= Go.Count firstLine "|")%nat ->
  exists status metric rest,
    Go.TrimSpace firstLine = status ++ "|" ++ metric ++ rest
    /\ Go.Count status "|" = 0%nat
    /\ Go.Count metric "|" = 0%nat
    /\ (rest = "" \/ exists tail, rest = "|" ++ tail)
    /\ parseErrplaneOutput now cmdState firstLine
       = match Unmarshal (Go.TrimSpace metric) with
         | (_, Some e) => Err e
         | (writes, None) =>
             Ok {| state := cmdState; msg := Go.TrimSpace status;
                   points := writes; metrics := None; timestamp := now |}
         end.
Proof.
  intros Hcount. rewrite <- TrimSpace_pipes in Hcount.
  destruct (Split_first_sep _ _ Hcount) as (status & r & Hline & Hstatus & Hsplit).
  destruct (Go.Count r "|") as [|n] eqn:Hr.
  - exists status, r, "". rewrite (Split_no_sep r "|" Hr) in Hsplit.
    split.
    { rewrite Hline.
      change (status ++ "|" ++ r ++ "") with (status ++ String "|" (r ++ "")).
      f_equal. f_equal. clear. induction r as [|c r IH]; [reflexivity|].
      change (String c r = String c (r ++ "")). now rewrite <- IH. }
    split; [exact Hstatus|]. split; [exact Hr|]. split; [now left|].
    now apply (parseErrplaneOutput_pieces now cmdState _ status r []).
  - destruct (Split_first_sep r "|") as (metric & tail & Hr' & Hmetric & Hsplit');
      [lia|].
    exists status, metric, ("|" ++ tail). rewrite Hsplit' in Hsplit.
    split.
    { rewrite Hline, Hr'.
      change (status ++ "|" ++ metric ++ "|" ++ tail)
        with (status ++ String "|" (metric ++ String "|" tail)).
      reflexivity. }
    split; [exact Hstatus|]. split; [exact Hmetric|].
    split; [right; now exists tail|].
    now apply (parseErrplaneOutput_pieces now cmdState _ status metric
                 (Go.Split tail "|")).
Qed.

(** X3: the two ways a nagios parse fails.  It returns an error exactly
    when the line has two or more ['|'], and the error is the format
    error; it panics exactly when the line has one ['|'] and the value of
    some metric, cut at its first [';'], is a bare [s] or [B], and the
    panic is the index out of range. *)
Theorem parseNagiosOutput_failures (now : Go.Time) (cmdState : Z)
    (firstLine : string) :
  (forall e,
      parseNagiosOutput now cmdState firstLine = Err e
      <-> e = ErrFirstLineFormat /\ (2 <= Go.Count firstLine "|")%nat)
  /\ (forall p,
         parseNagiosOutput now cmdState firstLine = Panic p
         <-> p = IndexOutOfRange (-1) 1
             /\ Go.Count firstLine "|" = 1%nat
             /\ exists key value,
                 Tokenizer.tokenize (Go.TrimSpace (perfdataOf firstLine)) !! key
                 = Some value
                 /\ bareUnit value = true).
Proof.
  rewrite parseNagiosOutput_by_count.
  destruct (Go.Count firstLine "|") as [|[|n]].
  - split; intros x; (split; [discriminate|]).
    + intros [_ H]. lia.
    + intros (_ & H & _). discriminate.
  - destruct (reduceMetrics_cases
                (Tokenizer.tokenize (Go.TrimSpace (perfdataOf firstLine))))
      as [[Hbare ->]|(Hnone & m & -> & _)]; cbn [mbind result_bind].
    + split; intros x; split; try discriminate.
      * intros [_ H]. lia.
      * intros [= <-]. now repeat split.
      * now intros (-> & _).
    + split; intros x; split; try discriminate.
      * intros [_ H]. lia.
      * intros (_ & _ & key & value & Hkey & Hbare).
        rewrite (Hnone key value Hkey) in Hbare. discriminate.
  - split; intros x; split; try discriminate.
    + intros [= <-]. split; [reflexivity|lia].
    + now intros [-> _].
    + intros (_ & H & _). discriminate.
Qed.

(** X4: the metrics of a nagios line with one ['|'].  When the parse
    returns, a name is in the metrics map exactly when the tokenizer stored
    a value under it that is not empty up to its first [';'] and is a
    number once its unit is removed, and the map holds that number. *)
Theorem parseNagiosOutput_metrics (now : Go.Time) (cmdState : Z)
    (firstLine : string) (out : PluginOutput) :
  Go.Count firstLine "|" = 1%nat ->
  parseNagiosOutput now cmdState firstLine = Ok out ->
  msg out = Go.TrimSpace (statusOf firstLine)
  /\ exists metricsMap,
      metrics out = Some metricsMap
      /\ forall key,
          metricsMap !! key
          = Tokenizer.tokenize (Go.TrimSpace (perfdataOf firstLine)) !! key
            ≫= metricValue.
Proof.
  intros Hcount. rewrite parseNagiosOutput_by_count, Hcount.
  destruct (reduceMetrics_cases
              (Tokenizer.tokenize (Go.TrimSpace (perfdataOf firstLine))))
    as [[_ ->]|(_ & m & -> & Hlookup)]; cbn [mbind result_bind];
    [discriminate|].
  intros [= <-]. cbn. split; [reflexivity|]. now exists m.
Qed.

(** X5: the unit switch is in bounds on every value but three: it panics
    exactly on the empty value, the bare [s] and the bare [B], never
    returns an error, and otherwise returns the value without its unit (two
    bytes for [ms], [us], [KB], [MB], [GB]; one for [s], [B], [%], [c]). *)
Theorem stripUnit_outcomes (value : string) :
  match stripUnit value with
  | Ok stripped =>
      value <> "" /\ value <> "s" /\ value <> "B"
      /\ stripped = withoutUnit value
  | Err _ => False
  | Panic p =>
      (value = "" /\ p = IndexOutOfRange (-1) 0)
      \/ ((value = "s" \/ value = "B") /\ p = IndexOutOfRange (-1) 1)
  end.
Proof.
  destruct (String.eqb_spec value "") as [->|Hempty]; [now left|].
  destruct (String.eqb_spec value "s") as [->|Hs]; [right; now split; [left|]|].
  destruct (String.eqb_spec value "B") as [->|HB];
    [right; now split; [right|]|].
  now rewrite stripUnit_withoutUnit.
Qed.

(** *** The tokenizer on well-formed perfdata *)

Lemma scan_not_quote (st : Tokenizer.t) (c : ascii) (rest : string) :
  Ascii.eqb c "'" = false ->
  Tokenizer.scan st (String c rest) = Tokenizer.scan (stepNoQuote st c) rest.
Proof.
  destruct c as [[] [] [] [] [] [] [] []]; intros H;
    first [discriminate H | reflexivity].
Qed.

Lemma scan_plain_byte (st : Tokenizer.t) (c : ascii) (rest : string) :
  plainByte c = true ->
  Tokenizer.scan st (String c rest)
  = Tokenizer.scan (Tokenizer.onByte st c) rest.
Proof.
  unfold plainByte. intros H. apply negb_true_iff in H.
  apply orb_false_iff in H as [H Hspace].
  apply orb_false_iff in H as [Hquote Hequals].
  rewrite scan_not_quote by assumption.
  unfold stepNoQuote. now rewrite Hequals, Hspace.
Qed.

Lemma append_empty_r (s : string) : s ++ "" = s.
Proof.
  induction s as [|c s IH]; [reflexivity|].
  change (String c (s ++ "") = String c s). now rewrite IH.
Qed.

Lemma written_empty (st : Tokenizer.t) : written st "" = st.
Proof. destruct st. unfold written. cbn. now rewrite append_empty_r. Qed.

Lemma written_cons (st : Tokenizer.t) (c : ascii) (s : string) :
  written (Tokenizer.onByte st c) s = written st (String c s).
Proof.
  unfold written, Tokenizer.onByte. cbn. now rewrite append_assoc.
Qed.

(** Plain bytes are written to the token. *)
Lemma scan_plain (s rest : string) (st : Tokenizer.t) :
  plain s = true ->
  Tokenizer.scan st (s ++ rest) = Tokenizer.scan (written st s) rest.
Proof.
  revert st. induction s as [|c s IH]; intros st Hplain.
  - now rewrite written_empty.
  - cbn [plain] in Hplain. apply andb_true_iff in Hplain as [Hc Hs].
    change (String c s ++ rest) with (String c (s ++ rest)).
    rewrite scan_plain_byte by assumption.
    rewrite IH by assumption. now rewrite written_cons.
Qed.

Lemma plain_no_quote (s : string) :
  plain s = true -> Go.Count s "'" = 0%nat.
Proof.
  induction s as [|c s IH]; [reflexivity|].
  cbn [plain Go.Count]. intros H. apply andb_true_iff in H as [Hc Hs].
  unfold plainByte in Hc. apply negb_true_iff in Hc.
  apply orb_false_iff in Hc as [Hc _]. apply orb_false_iff in Hc as [-> _].
  now rewrite IH.
Qed.

(** The token [name=value] read from the start. *)
Lemma scan_first_token (name value : string) :
  plain name = true -> plain value = true ->
  Tokenizer.scan Tokenizer.init (renderToken (name, value))
  = inValue name value ∅.
Proof.
  intros Hname Hvalue. unfold renderToken. cbn [fst snd].
  rewrite scan_plain by assumption.
  change ("=" ++ value) with (String "=" value).
  rewrite <- (append_empty_r value) at 1.
  change (Tokenizer.scan (written Tokenizer.init name) (String "=" (value ++ "")))
    with (Tokenizer.scan (inValue name "" ∅) (value ++ "")).
  rewrite scan_plain by assumption. reflexivity.
Qed.

(** A further token [ name=value] read inside the value of the one
    before. *)
Lemma scan_next_token (before tok name value : string)
    (stored : gmap string string) :
  plain name = true -> plain value = true ->
  Tokenizer.scan (inValue before tok stored) (" " ++ renderToken (name, value))
  = inValue name value (<[before := " " ++ tok]> stored).
Proof.
  intros Hname Hvalue. unfold renderToken. cbn [fst snd].
  change (" " ++ name ++ "=" ++ value)
    with (String " " (name ++ String "=" value)).
  change (Tokenizer.scan (inValue before tok stored)
            (String " " (name ++ String "=" value)))
    with (Tokenizer.scan
            {| Tokenizer.metricName := before;
               Tokenizer.value := "" ++ " " ++ tok; Tokenizer.token := "";
               Tokenizer.state := Tokenizer.IN_VALUE;
               Tokenizer.metrics := stored |}
            (name ++ String "=" value)).
  rewrite scan_plain by assumption.
  rewrite <- (append_empty_r value) at 1.
  change (Tokenizer.scan ?st (String "=" (value ++ "")))
    with (Tokenizer.scan (Tokenizer.onEquals st) (value ++ "")).
  rewrite scan_plain by assumption. reflexivity.
Qed.

Lemma Count_app (a b : string) (sep : ascii) :
  Go.Count (a ++ b) sep = (Go.Count a sep + Go.Count b sep)%nat.
Proof.
  induction a as [|c a IH]; [reflexivity|].
  change (String c a ++ b) with (String c (a ++ b)).
  cbn [Go.Count]. rewrite IH. lia.
Qed.

(** Without a quote in the text read, the loop can be cut anywhere. *)
Lemma scan_app (a b : string) (st : Tokenizer.t) :
  Go.Count a "'" = 0%nat ->
  Tokenizer.scan st (a ++ b) = Tokenizer.scan (Tokenizer.scan st a) b.
Proof.
  revert st. induction a as [|c a IH]; intros st Hcount; [reflexivity|].
  cbn [Go.Count] in Hcount.
  destruct (Ascii.eqb c "'") eqn:Hc; [discriminate|].
  change (String c a ++ b) with (String c (a ++ b)).
  rewrite !scan_not_quote by assumption. now apply IH.
Qed.

Lemma concat_snoc (sep x : string) (l : list string) :
  l <> [] -> String.concat sep (l ++ [x]) = String.concat sep l ++ sep ++ x.
Proof.
  induction l as [|a l IH]; [congruence|]. intros _.
  destruct l as [|b l]; [reflexivity|].
  change (String.concat sep ((a :: b :: l) ++ [x]))
    with (a ++ sep ++ String.concat sep ((b :: l) ++ [x])).
  rewrite IH by discriminate.
  change (String.concat sep (a :: b :: l))
    with (a ++ sep ++ String.concat sep (b :: l)).
  now rewrite !append_assoc.
Qed.

Lemma renderPerfdata_no_quote (entries : list (string * string)) :
  Forall (fun entry => plain entry.1 = true /\ plain entry.2 = true) entries ->
  Go.Count (renderPerfdata entries) "'" = 0%nat.
Proof.
  unfold renderPerfdata. induction 1 as [|[name value] entries [Hn Hv] _ IH];
    [reflexivity|].
  cbn [fst snd] in Hn, Hv.
  assert (Htoken : Go.Count (renderToken (name, value)) "'" = 0%nat).
  { unfold renderToken. cbn [fst snd]. rewrite !Count_app.
    rewrite (plain_no_quote name), (plain_no_quote value) by assumption.
    reflexivity. }
  destruct entries as [|entry entries]; [exact Htoken|].
  change (String.concat " " (renderToken <$> (name, value) :: entry :: entries))
    with (renderToken (name, value) ++ " "
          ++ String.concat " " (renderToken <$> entry :: entries)).
  rewrite !Count_app, Htoken, IH. reflexivity.
Qed.

(** The tokenizer after well-formed perfdata: inside the last value, the
    values before it stored with the space that ended them in front. *)
Lemma scan_perfdata (front : list (string * string)) (last : string * string) :
  Forall (fun entry => plain entry.1 = true /\ plain entry.2 = true)
         (front ++ [last]) ->
  Tokenizer.scan Tokenizer.init (renderPerfdata (front ++ [last]))
  = inValue last.1 last.2
      (foldl (fun stored entry => <[entry.1 := " " ++ entry.2]> stored)
             ∅ front).
Proof.
  revert last. induction front as [|before front IH] using rev_ind;
    intros [name value] Hplain.
  - apply Forall_singleton in Hplain as [Hn Hv].
    now apply scan_first_token.
  - apply Forall_app in Hplain as [Hfront Hlast].
    apply Forall_singleton in Hlast as [Hn Hv]. cbn [fst snd] in Hn, Hv.
    unfold renderPerfdata. rewrite fmap_app.
    change (renderToken <$> [(name, value)]) with [renderToken (name, value)].
    rewrite concat_snoc by (rewrite fmap_app; now destruct (renderToken <$> front)).
    fold (renderPerfdata (front ++ [before])).
    rewrite scan_app by now apply renderPerfdata_no_quote.
    rewrite IH by assumption.
    change (" " ++ renderToken (name, value))
      with (" " ++ renderToken (name, value)).
    rewrite scan_next_token by assumption.
    now rewrite foldl_snoc.
Qed.

Lemma firstField_space (value : string) :
  firstField (" " ++ value) = firstField value.
Proof. reflexivity. Qed.

(** X6: the tokenizer on perfdata written as [name=value] tokens
    separated by single spaces, names and values free of quotes, ['='] and
    spaces, names distinct: every name is stored, under itself, with its
    value, at most preceded by the space that separated the tokens (which
    the reduction trims away), and nothing else is stored. *)
Theorem tokenize_plain_perfdata (entries : list (string * string)) :
  entries <> [] ->
  Forall (fun entry => plain entry.1 = true /\ plain entry.2 = true) entries ->
  NoDup entries.*1 ->
  forall name,
    match (list_to_map entries : gmap string string) !! name with
    | Some value =>
        exists raw,
          Tokenizer.tokenize (renderPerfdata entries) !! name = Some raw
          /\ (raw = value \/ raw = " " ++ value)
          /\ firstField raw = firstField value
    | None => Tokenizer.tokenize (renderPerfdata entries) !! name = None
    end.
Proof.
  intros Hnonempty Hplain Hnodup name.
  destruct entries as [|entry entries _] using rev_ind; [congruence|].
  clear Hnonempty. rename entries into front. destruct entry as [lname lvalue].
  unfold Tokenizer.tokenize. rewrite scan_perfdata by assumption.
  cbn [inValue Tokenizer.metricName Tokenizer.value Tokenizer.token
       Tokenizer.metrics fst snd].
  change ("" ++ lvalue) with lvalue.
  rewrite fmap_app in Hnodup. apply NoDup_app in Hnodup as (Hfront & Hnotin & _).
  assert (Hlast : lname ∉ front.*1).
  { intros Hin. apply (Hnotin lname Hin). cbn. left. }
  assert (Hfold : forall key,
             foldl (fun stored entry => <[entry.1 := " " ++ entry.2]> stored)
                   (∅ : gmap string string) front !! key
             = (fun value => " " ++ value)
                 <$> (list_to_map front : gmap string string) !! key).
  { intros key.
    rewrite (foldl_insert_all_lookup (fun value => " " ++ value))
      by assumption.
    now destruct (list_to_map front !! key). }
  destruct (list_to_map (front ++ [(lname, lvalue)]) !! name) as [value|] eqn:Hname.
  - apply elem_of_list_to_map_2 in Hname.
    apply elem_of_app in Hname as [Hin|Hin].
    + assert (Hne : name <> lname).
      { intros ->. apply Hlast. apply list_elem_of_fmap. now exists (lname, value). }
      exists (" " ++ value). rewrite lookup_insert_ne by done.
      rewrite Hfold, (elem_of_list_to_map_1 front name value) by assumption.
      split; [reflexivity|]. split; [now right|apply firstField_space].
    + apply list_elem_of_singleton in Hin. injection Hin as -> ->.
      exists lvalue. rewrite lookup_insert_eq. split; [reflexivity|].
      split; [now left|reflexivity].
  - apply not_elem_of_list_to_map in Hname. rewrite fmap_app in Hname.
    apply not_elem_of_app in Hname as [Hfrontname Hlastname].
    rewrite lookup_insert_ne
      by (intros ->; apply Hlastname; cbn; left).
    rewrite Hfold. now rewrite (not_elem_of_list_to_map_1 front name).
Qed.

(** Inside quotes, a name without ['='] and spaces is read back from its
    escaped form. *)
Lemma scan_quoted (name rest tok : string) :
  quotable name = true ->
  Tokenizer.scan (inQuoted tok) (escapeQuotes name ++ rest)
  = Tokenizer.scan (inQuoted (tok ++ name)) rest.
Proof.
  revert tok. induction name as [|c name IH]; intros tok Hname.
  - now rewrite append_empty_r.
  - cbn [quotable] in Hname. apply andb_true_iff in Hname as [Hc Hname].
    apply negb_true_iff in Hc. apply orb_false_iff in Hc as [Hequals Hspace].
    replace (tok ++ String c name) with ((tok ++ String c "") ++ name)
      by now rewrite append_assoc.
    cbn [escapeQuotes]. destruct (Ascii.eqb c "'") eqn:Hquote.
    + apply Ascii.eqb_eq in Hquote. subst c.
      change (Tokenizer.scan (inQuoted tok)
                (String "'" (String "'" (escapeQuotes name)) ++ rest))
        with (Tokenizer.scan (inQuoted (tok ++ "'")) (escapeQuotes name ++ rest)).
      now apply IH.
    + change (String c (escapeQuotes name) ++ rest)
        with (String c (escapeQuotes name ++ rest)).
      rewrite scan_not_quote by assumption.
      unfold stepNoQuote. rewrite Hequals, Hspace.
      change (Tokenizer.onByte (inQuoted tok) c)
        with (inQuoted (tok ++ String c "")).
      now apply IH.
Qed.

(** X7: a quoted name without ['='] and spaces, its quotes doubled, is
    read back as it was: the perfdata ['name'=value] is stored under the
    name, with its value. *)
Theorem tokenize_quoted_name (name value : string) :
  quotable name = true -> plain value = true ->
  Tokenizer.tokenize ("'" ++ escapeQuotes name ++ "'=" ++ value)
  = {[ name := value ]}.
Proof.
  intros Hname Hvalue.
  assert (Hscan : Tokenizer.scan Tokenizer.init
                    ("'" ++ escapeQuotes name ++ "'=" ++ value)
                  = inValue name value ∅).
  { change (Tokenizer.scan Tokenizer.init
              ("'" ++ escapeQuotes name ++ "'=" ++ value))
      with (Tokenizer.scan (inQuoted "") (escapeQuotes name ++ "'=" ++ value)).
    rewrite scan_quoted by assumption.
    change ("" ++ name) with name.
    rewrite <- (append_empty_r value) at 1.
    change (Tokenizer.scan (inQuoted name) ("'=" ++ value ++ ""))
      with (Tokenizer.scan (inValue name "" ∅) (value ++ "")).
    now rewrite scan_plain by assumption. }
  unfold Tokenizer.tokenize. rewrite Hscan. reflexivity.
Qed.

(** *** Status and rates *)

Lemma String_outside (p : PluginStateOutput) :
  ~ (0 <= p <= 3)%Z -> PluginStateOutput_String p = Panic (UnknownState p).
Proof.
  intros H. destruct p as [|p|p]; [lia| |reflexivity].
  destruct p as [[p|p|]|[p|p|]|]; first [reflexivity | lia].
Qed.

(** X8: the dimensions of the status point.  [runPlugin] panics on them
    exactly when the state is not one of the four constants; otherwise
    they are the host, the name of the state, the message, and the
    instance when it has a name, and nothing else. *)
Theorem statusDimensions_outcomes (hostname : string) (instance : Instance)
    (output : PluginOutput) :
  match statusDimensions hostname instance output with
  | Ok dimensions =>
      (0 <= state output <= 3)%Z
      /\ dimensions !! "host" = Some hostname
      /\ (exists status,
             PluginStateOutput_String (state output) = Ok status
             /\ dimensions !! "status" = Some status)
      /\ dimensions !! "status_msg" = Some (msg output)
      /\ dimensions !! "instance"
         = (if String.eqb (Instance_Name instance) "" then None
            else Some (Instance_Name instance))
      /\ forall key, is_Some (dimensions !! key) ->
                     key = "host" \/ key = "status" \/ key = "status_msg"
                     \/ key = "instance"
  | Err _ => False
  | Panic p => p = UnknownState (state output) /\ ~ (0 <= state output <= 3)%Z
  end.
Proof.
  unfold statusDimensions.
  destruct (decide (0 <= state output <= 3)%Z) as [Hin|Hout].
  - assert (Hcases : state output = 0%Z \/ state output = 1%Z
                     \/ state output = 2%Z \/ state output = 3%Z) by lia.
    destruct Hcases as [ -> | [ -> | [ -> | -> ] ] ];
      cbn [PluginStateOutput_String mbind result_bind];
      destruct (String.eqb (Instance_Name instance) "");
      (split; [lia|]);
      (split; [reflexivity|]);
      (split; [eexists; split; reflexivity|]);
      (split; [reflexivity|]);
      (split; [reflexivity|]);
      intros key [v Hkey];
      repeat (rewrite lookup_insert in Hkey;
              case_decide; [subst; tauto|]);
      (rewrite lookup_singleton in Hkey;
       case_decide; [subst; tauto|discriminate]).
  - rewrite String_outside by assumption. now split.
Qed.

(** X9: the rate tracker keeps a window of two samples.  After an update
    for a key, the rates of the next update for that key are those against
    the output just stored, whatever the cache held before, and the cache
    then holds the newer output under the key and is otherwise as it was
    at the start. *)
Theorem calculateRates_window (OutputCache : gmap string PluginOutput)
    (dimensions1 dimensions2 : gmap string string) (instance : Instance)
    (plugin : PluginMetadata) (output1 output2 : PluginOutput)
    (currentValues1 currentValues2 : gmap string float) :
  let cacheKey := Name plugin ++ "/" ++ Instance_Name instance in
  let first :=
    calculateRates OutputCache dimensions1 instance plugin output1
                   currentValues1 in
  let second :=
    calculateRates first.2 dimensions2 instance plugin output2
                   currentValues2 in
  second.1
  = (calculateRates {[ cacheKey := output1 ]} dimensions2 instance plugin
                    output2 currentValues2).1
  /\ second.2 = <[cacheKey := output2]> OutputCache
  /\ second.2 !! cacheKey = Some output2.
Proof.
  cbv zeta. unfold calculateRates.
  set (cacheKey := Name plugin ++ "/" ++ Instance_Name instance).
  destruct (OutputCache !! cacheKey); cbn [fst snd];
    rewrite lookup_insert_eq, lookup_singleton_eq; cbn [fst snd];
    rewrite insert_insert_eq, lookup_insert_eq; now repeat split.
Qed.

Lemma Count_zero_app_sep (a1 a2 b1 b2 : string) (sep : ascii) :
  Go.Count a1 sep = 0%nat -> Go.Count a2 sep = 0%nat ->
  a1 ++ String sep b1 = a2 ++ String sep b2 -> a1 = a2 /\ b1 = b2.
Proof.
  revert a2. induction a1 as [|c a1 IH]; intros [|d a2] H1 H2 Heq.
  - now injection Heq as ->.
  - cbn [Go.Count] in H2. injection Heq as <- _.
    now rewrite Ascii.eqb_refl in H2.
  - cbn [Go.Count] in H1. injection Heq as -> _.
    now rewrite Ascii.eqb_refl in H1.
  - cbn [Go.Count] in H1, H2.
    change (String c (a1 ++ String sep b1) = String d (a2 ++ String sep b2))
      in Heq.
    injection Heq as -> Heq.
    destruct (Ascii.eqb d sep); [discriminate|].
    destruct (IH a2 H1 H2 Heq) as [-> ->]. now split.
Qed.

(** X10: plugins whose names have no slash (they are directory names)
    never share a cache entry unless they are the same plugin and
    instance: an update for one pair leaves the rates of the next update
    for another pair as they would have been, and the baseline stored for
    the first pair stays. *)
Theorem calculateRates_other_key (OutputCache : gmap string PluginOutput)
    (dimensionsA dimensionsB : gmap string string) (instanceA instanceB : Instance)
    (pluginA pluginB : PluginMetadata) (outputA outputB : PluginOutput)
    (currentValuesA currentValuesB : gmap string float) :
  Go.Count (Name pluginA) "/" = 0%nat ->
  Go.Count (Name pluginB) "/" = 0%nat ->
  (Name pluginA, Instance_Name instanceA)
  <> (Name pluginB, Instance_Name instanceB) ->
  let afterA :=
    (calculateRates OutputCache dimensionsA instanceA pluginA outputA
                    currentValuesA).2 in
  let updateB :=
    calculateRates afterA dimensionsB instanceB pluginB outputB
                   currentValuesB in
  updateB.1
  = (calculateRates OutputCache dimensionsB instanceB pluginB outputB
                    currentValuesB).1
  /\ updateB.2 !! (Name pluginA ++ "/" ++ Instance_Name instanceA)
     = Some outputA.
Proof.
  intros HA HB Hdiff. cbv zeta. unfold calculateRates.
  set (keyA := Name pluginA ++ "/" ++ Instance_Name instanceA).
  set (keyB := Name pluginB ++ "/" ++ Instance_Name instanceB).
  assert (Hne : keyA <> keyB).
  { intros Heq. apply Hdiff.
    destruct (Count_zero_app_sep _ _ _ _ "/" HA HB Heq) as [-> ->].
    reflexivity. }
  destruct (OutputCache !! keyA); cbn [fst snd];
    rewrite (lookup_insert_ne _ keyA keyB) by assumption;
    (destruct (OutputCache !! keyB); cbn [fst snd];
     (split; [reflexivity|]);
     rewrite lookup_insert_ne by done; apply lookup_insert_eq).
Qed.

Lemma recordFirstPoint_other (patterns : list string) (write : JsonPoints)
    (currentValues : gmap string float) (name : string) :
  matchesAny patterns name = false ->
  recordFirstPoint patterns write currentValues !! name
  = currentValues !! name.
Proof.
  unfold recordFirstPoint, matchesAny. revert currentValues.
  induction patterns as [|metric patterns IH]; intros cv Hnone;
    [reflexivity|].
  cbn [existsb] in Hnone. apply orb_false_iff in Hnone as [Hmetric Hnone].
  cbn [foldl]. rewrite IH by assumption.
  destruct (decide (JsonPoints_Name write = name)) as [Heq|Hne].
  - rewrite Heq. destruct (MatchString metric name) as [[|] [e|]];
      try reflexivity; discriminate.
  - destruct (MatchString metric (JsonPoints_Name write)) as [[|] [e|]];
      try reflexivity.
    destruct (Points write); [reflexivity|].
    now rewrite lookup_insert_ne by done.
Qed.

Lemma currentValuesOf_ineligible (plugin : PluginMetadata)
    (output : PluginOutput) (name : string) :
  matchesAny (CalculateRates plugin) name = false ->
  currentValuesOf plugin output !! name = None.
Proof.
  intros Hnone. unfold currentValuesOf.
  assert (Hpoints : forall writes (cv : gmap string float),
             cv !! name = None ->
             foldl (fun currentValues write =>
                      recordFirstPoint (CalculateRates plugin) write
                                       currentValues) cv writes !! name
             = None).
  { induction writes as [|write writes IH]; intros cv Hcv; [exact Hcv|].
    cbn [foldl]. apply IH. now rewrite recordFirstPoint_other. }
  assert (Hmetrics : forall entries (cv : gmap string float),
             cv !! name = None ->
             foldl (fun currentValues (entry : string * float) =>
                      recordIfMatches (CalculateRates plugin) entry.1 entry.2
                                      currentValues) cv entries !! name
             = None).
  { induction entries as [|[key v] entries IH]; intros cv Hcv; [exact Hcv|].
    cbn [foldl fst snd]. apply IH. rewrite recordIfMatches_eq.
    destruct (matchesAny (CalculateRates plugin) key) eqn:Hkey; [|exact Hcv].
    rewrite lookup_insert_ne; [exact Hcv|]. intros ->. congruence. }
  destruct (metrics output) as [metricsMap|].
  - apply Hmetrics. destruct (points output); [now apply Hpoints|].
    apply lookup_empty.
  - destruct (points output); [now apply Hpoints|]. apply lookup_empty.
Qed.

(** X11: a metric whose name none of the plugin's patterns matches (a
    pattern that does not compile matches nothing) is never given a rate,
    on the nagios path and on the errplane path alike: it is not among the
    current values, and no rate point carries its name. *)
Theorem ineligible_metric_has_no_rate (OutputCache : gmap string PluginOutput)
    (dimensions : gmap string string) (instance : Instance)
    (plugin : PluginMetadata) (output : PluginOutput) (name : string) :
  matchesAny (CalculateRates plugin) name = false ->
  currentValuesOf plugin output !! name = None
  /\ forall report,
      report ∈ (calculateRates OutputCache dimensions instance plugin output
                               (currentValuesOf plugin output)).1 ->
      report_name report
      <> "plugins." ++ Name plugin ++ "." ++ name ++ ".rate".
Proof.
  intros Hnone.
  pose proof (currentValuesOf_ineligible plugin output name Hnone) as Hcurrent.
  split; [exact Hcurrent|].
  intros report Hin Hname. unfold calculateRates in Hin.
  destruct (OutputCache !! _) as [previousOutput|]; cbn [fst] in Hin;
    [|now apply elem_of_nil in Hin].
  apply list_elem_of_omap in Hin as ([name' previous] & _ & Hreport).
  cbn [fst snd] in Hreport.
  destruct (currentValuesOf plugin output !! name') as [current|] eqn:Hcur;
    [|discriminate].
  apply (inj Some) in Hreport. subst report. cbn [report_name] in Hname.
  apply rate_name_inj in Hname. subst name'. congruence.
Qed.

(** *** The scan of a plugin directory *)

Lemma parsePluginInfo_names (fs : FileSystem) (dirname : string)
    (plugin : PluginMetadata) :
  parsePluginInfo fs dirname = Ok plugin ->
  Name plugin = pathBase dirname /\ Path plugin = dirname
  /\ withPath plugin dirname = plugin.
Proof.
  unfold parsePluginInfo.
  destruct (ReadFile fs _) as [infoContent [e|]]; [discriminate|].
  destruct (yamlUnmarshal infoContent) as [metadata [e|]]; [discriminate|].
  now intros [= <-].
Qed.

(** The loop of [getPluginsInfo] over part of a listing: what it binds
    comes from a directory of the listing that parses, or was bound
    before. *)
Lemma getPluginsInfo_loop_sound (fs : FileSystem) (dir : string)
    (infos : list FileInfo) (acc : gmap string PluginMetadata)
    (name : string) (plugin : PluginMetadata) :
  foldl (fun plugins info =>
           if negb (IsDir info) then plugins
           else
             let dirname := FileInfo_Name info in
             let pluginDir := pathJoin [dir; dirname] in
             match parsePluginInfo fs pluginDir with
             | Ok plugin => <[Name plugin := withPath plugin pluginDir]> plugins
             | _ => plugins
             end)
        acc infos !! name = Some plugin ->
  acc !! name = Some plugin
  \/ exists info,
      info ∈ infos /\ IsDir info = true
      /\ parsePluginInfo fs (pathJoin [dir; FileInfo_Name info]) = Ok plugin
      /\ Name plugin = name.
Proof.
  revert acc. induction infos as [|info infos IH]; intros acc Hlookup;
    [now left|].
  cbn [foldl] in Hlookup. apply IH in Hlookup as [Hacc|(info' & Hin & H)].
  - destruct (IsDir info) eqn:Hdir; cbn [negb] in Hacc; [|now left].
    cbv zeta in Hacc.
    destruct (parsePluginInfo fs (pathJoin [dir; FileInfo_Name info]))
      as [parsed| |] eqn:Hparse; try now left.
    destruct (parsePluginInfo_names _ _ _ Hparse) as (_ & _ & Hwith).
    rewrite Hwith in Hacc.
    destruct (decide (Name parsed = name)) as [Heq|Hne].
    + rewrite Heq, lookup_insert_eq in Hacc. injection Hacc as <-.
      right. exists info. split; [left|]. now repeat split.
    + rewrite lookup_insert_ne in Hacc by done. now left.
  - right. exists info'. split; [now right|exact H].
Qed.

(** The loop never unbinds a name, and binds the name of every directory
    that parses. *)
Lemma getPluginsInfo_loop_complete (fs : FileSystem) (dir : string)
    (infos : list FileInfo) (acc : gmap string PluginMetadata) (name : string) :
  is_Some (acc !! name)
  \/ (exists info plugin,
         info ∈ infos /\ IsDir info = true
         /\ parsePluginInfo fs (pathJoin [dir; FileInfo_Name info]) = Ok plugin
         /\ Name plugin = name) ->
  is_Some
    (foldl (fun plugins info =>
              if negb (IsDir info) then plugins
              else
                let dirname := FileInfo_Name info in
                let pluginDir := pathJoin [dir; dirname] in
                match parsePluginInfo fs pluginDir with
                | Ok plugin => <[Name plugin := withPath plugin pluginDir]> plugins
                | _ => plugins
                end)
           acc infos !! name).
Proof.
  revert acc. induction infos as [|info infos IH]; intros acc H.
  - destruct H as [H|(info & plugin & Hin & _)]; [exact H|].
    now apply elem_of_nil in Hin.
  - cbn [foldl]. apply IH.
    destruct H as [Hacc|(info' & plugin & Hin & Hdir & Hparse & Hname)].
    + left. destruct (IsDir info); cbn [negb]; [|exact Hacc]. cbv zeta.
      destruct (parsePluginInfo fs _) as [parsed| |]; try exact Hacc.
      destruct (decide (Name parsed = name)) as [Heq|Hne].
      * rewrite Heq, lookup_insert_eq. eauto.
      * now rewrite lookup_insert_ne by done.
    + apply elem_of_cons in Hin as [->|Hin].
      * left. rewrite Hdir. cbn [negb]. cbv zeta. rewrite Hparse, Hname.
        rewrite lookup_insert_eq. eauto.
      * right. now exists info', plugin.
Qed.

(** X12: the scan of a plugin directory.  It fails only when the
    directory cannot be listed, with the error of the listing; entries
    that are not directories and directories whose descriptor cannot be
    read or decoded are passed over without ending the scan.  What is
    bound under a name is the metadata parsed from a listed directory,
    named by the base name of its own path, which is the scanned directory
    joined with the entry's name; and every listed directory that parses
    has its name bound. *)
Theorem getPluginsInfo_scan (fs : FileSystem) (dir : string) :
  match getPluginsInfo fs dir with
  | Err e => (ReadDir fs dir).2 = Some e
  | Panic _ => False
  | Ok plugins =>
      (ReadDir fs dir).2 = None
      /\ (forall name plugin,
             plugins !! name = Some plugin ->
             Name plugin = name
             /\ name = pathBase (Path plugin)
             /\ exists info,
                 info ∈ (ReadDir fs dir).1 /\ IsDir info = true
                 /\ Path plugin = pathJoin [dir; FileInfo_Name info]
                 /\ parsePluginInfo fs (Path plugin) = Ok plugin)
      /\ (forall info plugin,
             info ∈ (ReadDir fs dir).1 -> IsDir info = true ->
             parsePluginInfo fs (pathJoin [dir; FileInfo_Name info]) = Ok plugin ->
             is_Some (plugins !! Name plugin))
  end.
Proof.
  unfold getPluginsInfo. destruct (ReadDir fs dir) as [infos [e|]];
    [reflexivity|]. cbn [fst snd]. split; [reflexivity|]. split.
  - intros name plugin Hlookup.
    apply getPluginsInfo_loop_sound in Hlookup
      as [Hempty|(info & Hin & Hdir & Hparse & Hname)];
      [now rewrite lookup_empty in Hempty|].
    destruct (parsePluginInfo_names _ _ _ Hparse) as (Hbase & Hpath & _).
    split; [exact Hname|]. split; [now rewrite Hpath, <- Hbase|].
    exists info. rewrite Hpath. now repeat split.
  - intros info plugin Hin Hdir Hparse.
    apply getPluginsInfo_loop_complete. right. now exists info, plugin.
Qed.

Lemma getPluginsInfo_keys (fs : FileSystem) (dir : string)
    (plugins : gmap string PluginMetadata) (name : string)
    (plugin : PluginMetadata) :
  getPluginsInfo fs dir = Ok plugins ->
  plugins !! name = Some plugin ->
  Name plugin = name /\ name = pathBase (Path plugin).
Proof.
  unfold getPluginsInfo. destruct (ReadDir fs dir) as [infos [e|]];
    [discriminate|].
  intros [= <-] Hlookup.
  apply getPluginsInfo_loop_sound in Hlookup
    as [Hempty|(info & _ & _ & Hparse & Hname)];
    [now rewrite lookup_empty in Hempty|].
  destruct (parsePluginInfo_names _ _ _ Hparse) as (Hbase & Hpath & _).
  split; [exact Hname|]. now rewrite Hpath, <- Hbase.
Qed.

(** X13: the registry that [getAvailablePlugins] returns.  The plugins
    were installed first exactly when the installed version was not the
    latest.  The registry binds the names that the scan of the bundled
    directory of the latest version or the scan of the custom directory
    binds, and no other; every plugin is bound under its own name, the
    base name of its path; and a plugin is marked custom unless the custom
    directory does not bind its name. *)
Theorem getAvailablePlugins_registry (fs fs' : FileSystem)
    (merged : gmap string PluginMetadata) :
  getAvailablePlugins fs = (Some merged, fs') ->
  fs' = (if String.eqb (GetInstalledPluginsVersion fs).1
                       GetCurrentPluginsVersion.1
         then fs else InstallPlugin GetCurrentPluginsVersion.1 fs)
  /\ exists plugins customPlugins,
      getPluginsInfo fs' (pathJoin [PLUGINS_DIR; GetCurrentPluginsVersion.1])
      = Ok plugins
      /\ getPluginsInfo fs' CUSTOM_PLUGINS_DIR = Ok customPlugins
      /\ (forall name,
             is_Some (merged !! name)
             <-> is_Some (plugins !! name) \/ is_Some (customPlugins !! name))
      /\ (forall name plugin,
             merged !! name = Some plugin ->
             Name plugin = name
             /\ name = pathBase (Path plugin)
             /\ (IsCustom plugin = true \/ customPlugins !! name = None)).
Proof.
  unfold getAvailablePlugins.
  destruct (GetInstalledPluginsVersion fs) as [version err].
  destruct (match err with
            | Some e => negb (osIsNotExist e)
            | None => false
            end); [discriminate|].
  destruct GetCurrentPluginsVersion as [latestVersion [e|]];
    [discriminate|].
  cbn [fst].
  set (fs1 := if negb (version =? latestVersion)%string
              then InstallPlugin latestVersion fs else fs).
  destruct (getPluginsInfo fs1 (pathJoin [PLUGINS_DIR; latestVersion]))
    as [plugins| |] eqn:Hplugins; try discriminate.
  destruct (getPluginsInfo fs1 CUSTOM_PLUGINS_DIR)
    as [customPlugins| |] eqn:Hcustom; try discriminate.
  intros [= <- <-].
  assert (Hlookup : forall name,
             foldl (fun plugins entry =>
                      <[entry.1 := markCustom entry.2]> plugins)
                   plugins (map_to_list customPlugins) !! name
             = match customPlugins !! name with
               | Some custom => Some (markCustom custom)
               | None => plugins !! name
               end).
  { intros name.
    rewrite (foldl_insert_all_lookup markCustom)
      by apply NoDup_fst_map_to_list.
    now rewrite list_to_map_to_list. }
  split; [subst fs1; now destruct (version =? latestVersion)%string|].
  exists plugins, customPlugins.
  split; [exact Hplugins|]. split; [exact Hcustom|]. split.
  - intros name. rewrite Hlookup.
    destruct (customPlugins !! name) as [custom|]; split; eauto.
    intros [H|[x H]]; [exact H|discriminate].
  - intros name plugin. rewrite Hlookup.
    destruct (customPlugins !! name) as [custom|] eqn:Hname.
    + intros [= <-].
      destruct (getPluginsInfo_keys _ _ _ _ _ Hcustom Hname) as [Hn Hp].
      split; [exact Hn|]. split; [exact Hp|]. now left.
    + intros Hbundled.
      destruct (getPluginsInfo_keys _ _ _ _ _ Hplugins Hbundled) as [Hn Hp].
      split; [exact Hn|]. split; [exact Hp|]. now right.
Qed.

(** *** Running the plugins *)

Lemma argsIn_flat (instance : Instance) (entries : list (string * string)) :
  argsIn instance entries
  = app (ArgsList instance)
        (entries ≫= fun entry => ["--" ++ entry.1; entry.2]).
Proof.
  unfold argsIn. generalize (ArgsList instance) as positional.
  induction entries as [|entry entries IH]; intros positional.
  - cbn. now rewrite app_nil_r.
  - cbn [foldl]. rewrite IH. cbn [mbind list_bind].
    now rewrite <- app_assoc.
Qed.

Lemma flags_lookup (entries : list (string * string)) (i : nat) :
  (entries ≫= fun entry => ["--" ++ entry.1; entry.2]) !! (2 * i)%nat
  = (fun entry => "--" ++ entry.1) <$> entries !! i
  /\ (entries ≫= fun entry => ["--" ++ entry.1; entry.2]) !! (2 * i + 1)%nat
     = snd <$> entries !! i.
Proof.
  revert i. induction entries as [|entry entries IH]; intros i;
    [now rewrite !lookup_nil|].
  destruct i as [|i]; [now split|].
  replace (2 * S i)%nat with (S (S (2 * i))) by lia.
  replace (S (S (2 * i)) + 1)%nat with (S (S (2 * i + 1))) by lia.
  cbn [mbind list_bind app lookup list_lookup]. apply IH.
Qed.

(** X14: the arguments a plugin is run with, whatever the order in which
    the named arguments are visited: the positional arguments come first,
    unchanged; then each named argument takes two places, [--name] and
    right after it its value; and nothing else is passed. *)
Theorem args_layout (instance : Instance) (entries : list (string * string)) :
  entries ≡ₚ map_to_list (Args instance) ->
  let positional := length (ArgsList instance) in
  take positional (argsIn instance entries) = ArgsList instance
  /\ length (argsIn instance entries)
     = (positional + 2 * size (Args instance))%nat
  /\ forall name value,
      Args instance !! name = Some value
      <-> exists i,
          argsIn instance entries !! (positional + 2 * i)%nat
          = Some ("--" ++ name)
          /\ argsIn instance entries !! (positional + 2 * i + 1)%nat
             = Some value.
Proof.
  intros Hperm positional. subst positional. rewrite argsIn_flat.
  split; [now rewrite list.take_app_length|]. split.
  - rewrite List.length_app. f_equal.
    rewrite <- (length_map_to_list (Args instance)), <- Hperm.
    clear. induction entries as [|entry entries IH]; [reflexivity|].
    cbn [mbind list_bind length app]. cbn [mbind] in IH. rewrite IH. lia.
  - intros name value. split.
    + intros Hlookup. apply elem_of_map_to_list in Hlookup.
      rewrite <- Hperm in Hlookup.
      apply list_elem_of_lookup in Hlookup as [i Hi]. exists i.
      rewrite <- Nat.add_assoc, !lookup_app_r by lia.
      replace (length (ArgsList instance) + 2 * i - length (ArgsList instance))%nat
        with (2 * i)%nat by lia.
      replace (length (ArgsList instance) + (2 * i + 1)
               - length (ArgsList instance))%nat
        with (2 * i + 1)%nat by lia.
      destruct (flags_lookup entries i) as [-> ->]. now rewrite Hi.
    + intros (i & Hflag & Hvalue).
      rewrite <- Nat.add_assoc in Hvalue.
      rewrite lookup_app_r in Hflag, Hvalue by lia.
      replace (length (ArgsList instance) + 2 * i - length (ArgsList instance))%nat
        with (2 * i)%nat in Hflag by lia.
      replace (length (ArgsList instance) + (2 * i + 1)
               - length (ArgsList instance))%nat
        with (2 * i + 1)%nat in Hvalue by lia.
      destruct (flags_lookup entries i) as [H1 H2].
      rewrite H1 in Hflag. rewrite H2 in Hvalue.
      destruct (entries !! i) as [[name' value']|] eqn:Hi; [|discriminate].
      cbn in Hflag, Hvalue. injection Hflag as Hname. injection Hvalue as ->.
      apply String.app_inj in Hname. subst name'.
      apply elem_of_map_to_list. rewrite <- Hperm.
      apply list_elem_of_lookup. now exists i.
Qed.

Lemma launch_flat (plugins : option (gmap string PluginMetadata))
    (entries : list (string * list Instance))
    (launched : list (Instance * PluginMetadata)) :
  foldl (launch plugins) launched entries
  = app launched
        (entries ≫= fun entry =>
           match default ∅ plugins !! entry.1 with
           | None => []
           | Some plugin =>
               (fun instance => (instance, plugin))
                 <$> (if (length entry.2 =? 0)%nat then DEFAULT_INSTANCES
                      else entry.2)
           end).
Proof.
  revert launched. induction entries as [|entry entries IH]; intros launched.
  - cbn. now rewrite app_nil_r.
  - cbn [foldl]. rewrite IH. cbn [mbind list_bind]. rewrite app_assoc.
    f_equal. unfold launch.
    destruct (default ∅ plugins !! entry.1) as [plugin|];
      [|now rewrite app_nil_r].
    generalize (if (length entry.2 =? 0)%nat then DEFAULT_INSTANCES
                else entry.2) as instances.
    intros instances. revert launched.
    induction instances as [|instance instances IHi]; intros launched.
    + cbn. now rewrite app_nil_r.
    + cbn [foldl fmap list_fmap]. rewrite IHi. now rewrite <- app_assoc.
Qed.

(** X15: what a turn of the scheduler starts when the configuration was
    fetched.  A plugin instance is started exactly when its plugin name is
    configured and is in the registry, and the instance is one of those
    configured for the name, or the unnamed default instance when none is
    configured; a configured name that the registry lacks (or a registry
    that could not be resolved) starts nothing. *)
Theorem monitorTick_launches (previousConfig : option AgentConfiguration)
    (config : AgentConfiguration) (fs : FileSystem)
    (instance : Instance) (plugin : PluginMetadata) :
  (instance, plugin) ∈ (monitorTick previousConfig (inl config) fs).1
  <-> exists name instances,
      Plugins config !! name = Some instances
      /\ default ∅ (getAvailablePlugins fs).1 !! name = Some plugin
      /\ (instance ∈ instances
          \/ instances = []
             /\ instance = {| Instance_Name := ""; ArgsList := []; Args := ∅ |}).
Proof.
  unfold monitorTick. destruct (getAvailablePlugins fs) as [plugins fs'].
  cbn [fst]. rewrite launch_flat. cbn [app].
  rewrite list_elem_of_bind. split.
  - intros ([name instances] & Hin & Hentry).
    apply elem_of_map_to_list in Hentry. cbn [fst snd] in Hin.
    exists name, instances. split; [exact Hentry|].
    destruct (default ∅ plugins !! name) as [found|];
      [|now apply elem_of_nil in Hin].
    apply list_elem_of_fmap in Hin as (instance' & [= -> ->] & Hin).
    split; [reflexivity|].
    destruct instances as [|first rest]; cbn in Hin.
    + right. split; [reflexivity|].
      now apply list_elem_of_singleton in Hin.
    + now left.
  - intros (name & instances & Hentry & Hfound & Hinstance).
    exists (name, instances). split; [|now apply elem_of_map_to_list].
    cbn [fst snd]. rewrite Hfound. apply list_elem_of_fmap.
    exists instance. split; [reflexivity|].
    destruct Hinstance as [Hin|[-> ->]].
    + destruct instances as [|first rest]; [now apply elem_of_nil in Hin|].
      exact Hin.
    + cbn. left.
Qed.

(** X16: a turn whose fetch of the configuration failed starts nothing,
    at every turn of the loop: [previousConfig] is never assigned, so there
    is no earlier configuration to fall back on. *)
Theorem monitorPlugins_failed_fetch
    (fetches : list (AgentConfiguration + error)) (fs : FileSystem)
    (turn : nat) (e : error) :
  fetches !! turn = Some (inr e) ->
  monitorPlugins fetches fs !! turn = Some [].
Proof.
  unfold monitorPlugins. revert fs turn.
  induction fetches as [|fetched fetches IH]; intros fs turn Hturn;
    [now rewrite lookup_nil in Hturn|].
  cbn [monitorTicks].
  destruct (monitorTick None fetched fs) as [launched fs'] eqn:Htick.
  destruct turn as [|turn].
  - injection Hturn as ->. cbn in Htick. now injection Htick as <- _.
  - now apply IH.
Qed.

(** *** Plugins offered for monitoring *)

Lemma availablePlugins_loop (entries : list (string * PluginMetadata))
    (available : list string) :
  foldl (fun availablePlugins entry =>
           match runCommand (pathJoin [Path entry.2; "should_monitor"]) with
           | Some _ => availablePlugins
           | None => app availablePlugins [entry.1]
           end)
        available entries
  = app available
        (fst <$> filter
                   (fun entry : string * PluginMetadata =>
                      runCommand (pathJoin [Path entry.2; "should_monitor"])
                      = None)
                   entries).
Proof.
  revert available. induction entries as [|entry entries IH]; intros available.
  - cbn. now rewrite app_nil_r.
  - cbn [foldl]. rewrite IH. rewrite filter_cons.
    destruct (decide (runCommand (pathJoin [Path entry.2; "should_monitor"])
                      = None)) as [Hrun|Hrun].
    + rewrite Hrun. cbn [fmap list_fmap]. now rewrite <- app_assoc.
    + destruct (runCommand _); [reflexivity|congruence].
Qed.

(** X17: the plugins that [checkNewPlugins] reports as available.  A name
    is reported exactly when the registry binds it, the [should_monitor]
    command in the plugin's directory runs without an error, and, if the
    run configuration could be fetched, the configuration does not name
    it; when the fetch failed, the plugins already configured are checked
    like the others.  No name is reported twice. *)
Theorem availablePlugins_offered (plugins : option (gmap string PluginMetadata))
    (fetched : AgentConfiguration + error) :
  NoDup (availablePlugins (pluginsToCheck plugins fetched))
  /\ forall name,
      name ∈ availablePlugins (pluginsToCheck plugins fetched)
      <-> exists plugin,
          default ∅ plugins !! name = Some plugin
          /\ runCommand (pathJoin [Path plugin; "should_monitor"]) = None
          /\ match fetched with
             | inl pluginsToRun => Plugins pluginsToRun !! name = None
             | inr _ => True
             end.
Proof.
  assert (Hcheck : forall name,
             default ∅ (pluginsToCheck plugins fetched) !! name
             = match fetched with
               | inl pluginsToRun =>
                   match Plugins pluginsToRun !! name with
                   | Some _ => None
                   | None => default ∅ plugins !! name
                   end
               | inr _ => default ∅ plugins !! name
               end).
  { intros name. destruct fetched as [pluginsToRun|e]; [|reflexivity].
    cbn [pluginsToCheck default id].
    set (test := fun key => match Plugins pluginsToRun !! key with
                            | Some _ => false
                            | None => true
                            end).
    rewrite (foldl_pointwise _
               (fun m (entry : string * PluginMetadata) =>
                  if test entry.1 then <[entry.1 := entry.2]> m else m))
      by (intros m entry; unfold test;
          now destruct (Plugins pluginsToRun !! entry.1)).
    rewrite (foldl_insert_if_lookup test) by apply NoDup_fst_map_to_list.
    unfold test.
    rewrite list_to_map_to_list, lookup_empty.
    now destruct (default ∅ plugins !! name),
                 (Plugins pluginsToRun !! name). }
  unfold availablePlugins. rewrite availablePlugins_loop. cbn [app].
  split.
  - apply NoDup_fmap_fst.
    + intros name plugin1 plugin2 H1 H2.
      apply list_elem_of_filter in H1 as [_ H1], H2 as [_ H2].
      apply elem_of_map_to_list in H1, H2. congruence.
    + apply NoDup_filter, NoDup_map_to_list.
  - intros name. rewrite list_elem_of_fmap. split.
    + intros ([name' plugin] & -> & Hin).
      apply list_elem_of_filter in Hin as [Hrun Hin].
      apply elem_of_map_to_list in Hin. rewrite Hcheck in Hin.
      cbn [fst snd] in *. exists plugin.
      destruct fetched as [pluginsToRun|e].
      * destruct (Plugins pluginsToRun !! name'); [discriminate|].
        now repeat split.
      * now repeat split.
    + intros (plugin & Hfound & Hrun & Hfetched).
      exists (name, plugin). split; [reflexivity|].
      apply list_elem_of_filter. split; [exact Hrun|].
      apply elem_of_map_to_list. rewrite Hcheck.
      destruct fetched as [pluginsToRun|e]; [|exact Hfound].
      now rewrite Hfetched.
Qed.

(** *** The points of a nagios output *)

Lemma metric_name_inj (pluginName name1 name2 : string) :
  "plugins." ++ pluginName ++ "." ++ name1
  = "plugins." ++ pluginName ++ "." ++ name2 ->
  name1 = name2.
Proof.
  intros H. apply String.app_inj in H. apply String.app_inj in H.
  now apply String.app_inj in H.
Qed.

(** X18: the points reported for the metrics of a nagios output.  Each
    metric of the map is reported once, under
    [plugins.<plugin>.<metric>], with its value, tagged with the host and,
    when the instance has a name, with the instance; nothing else is
    reported, and an output without a metrics map reports nothing. *)
Theorem metricPoints_reported (hostname : string) (instance : Instance)
    (plugin : PluginMetadata) (output : PluginOutput) :
  NoDup (report_name <$> metricPoints hostname instance plugin output)
  /\ (forall report,
         report ∈ metricPoints hostname instance plugin output ->
         report_dimensions report !! "host" = Some hostname
         /\ report_dimensions report !! "instance"
            = (if String.eqb (Instance_Name instance) "" then None
               else Some (Instance_Name instance))
         /\ exists name,
             report_name report = "plugins." ++ Name plugin ++ "." ++ name)
  /\ forall name value,
      (exists report,
          report ∈ metricPoints hostname instance plugin output
          /\ report_name report = "plugins." ++ Name plugin ++ "." ++ name
          /\ report_value report = value)
      <-> default ∅ (metrics output) !! name = Some value.
Proof.
  unfold metricPoints. destruct (metrics output) as [metricsMap|];
    cbn [default].
  2:{ split; [constructor|]. split.
      - intros report Hin. now apply elem_of_nil in Hin.
      - intros name value. rewrite lookup_empty. split; [|discriminate].
        intros (report & Hin & _). now apply elem_of_nil in Hin. }
  split; [|split].
  - rewrite <- list_fmap_compose.
    apply NoDup_fmap_2_strong; [|apply NoDup_map_to_list].
    intros [name1 v1] [name2 v2] H1 H2 Hname. cbn in Hname.
    apply metric_name_inj in Hname. subst name2.
    apply elem_of_map_to_list in H1, H2. cbn in *. congruence.
  - intros report Hin.
    apply list_elem_of_fmap in Hin as ([name value] & -> & _).
    cbn [report_dimensions report_name fst].
    destruct (String.eqb (Instance_Name instance) "");
      (split; [reflexivity|]); (split; [reflexivity|]); now exists name.
  - intros name value. split.
    + intros (report & Hin & Hname & Hvalue).
      apply list_elem_of_fmap in Hin as ([name' value'] & -> & Hin).
      cbn [report_name report_value fst snd] in Hname, Hvalue.
      apply metric_name_inj in Hname. subst name' value'.
      now apply elem_of_map_to_list in Hin.
    + intros Hlookup. eexists. split.
      * apply list_elem_of_fmap. exists (name, value).
        split; [reflexivity|]. now apply elem_of_map_to_list.
      * now split.
Qed.

(** *** More on the registry, the status and the errplane values *)

(** X20: when the registry cannot be resolved.  [getAvailablePlugins]
    returns [nil] exactly when the installed version cannot be read for
    another reason than a missing file, the latest version cannot be
    fetched, or, once the latest version is installed if it was not, the
    bundled or the custom directory cannot be listed; in the first two
    cases nothing is installed. *)
Theorem getAvailablePlugins_nil (fs : FileSystem) :
  let latest := GetCurrentPluginsVersion.1 in
  let installed :=
    if String.eqb (GetInstalledPluginsVersion fs).1 latest then fs
    else InstallPlugin latest fs in
  let unreadable :=
    exists e, (GetInstalledPluginsVersion fs).2 = Some e
              /\ osIsNotExist e = false in
  ((getAvailablePlugins fs).1 = None
   <-> unreadable
       \/ is_Some GetCurrentPluginsVersion.2
       \/ is_Some (ReadDir installed (pathJoin [PLUGINS_DIR; latest])).2
       \/ is_Some (ReadDir installed CUSTOM_PLUGINS_DIR).2)
  /\ (unreadable \/ is_Some GetCurrentPluginsVersion.2 ->
      (getAvailablePlugins fs).2 = fs).
Proof.
  cbv zeta. unfold getAvailablePlugins, getPluginsInfo.
  destruct (GetInstalledPluginsVersion fs) as [version [e|]]; cbn [fst snd].
  - destruct (osIsNotExist e) eqn:Hexist; cbn [negb].
    + destruct GetCurrentPluginsVersion as [latest [e'|]]; cbn [fst snd].
      * split; [|reflexivity]. split; [intros _; right; left; eauto|reflexivity].
      * destruct (version =? latest)%string; cbn [negb];
          (destruct (ReadDir _ (pathJoin _)) as [infos [e1|]]; cbn [fst snd];
           [|destruct (ReadDir _ CUSTOM_PLUGINS_DIR) as [infos' [e2|]];
             cbn [fst snd]]);
          (split;
           [split;
            [first [discriminate | intros _; eauto 6]
            |intros [(x & [= <-] & Hx)|[[x Hx]|[[x Hx]|[x Hx]]]];
             first [reflexivity | congruence | discriminate]]
           |intros [(x & [= <-] & Hx)|[x Hx]];
            first [congruence | discriminate]]).
    + split; [|reflexivity]. split; [intros _; left; eauto|reflexivity].
  - destruct GetCurrentPluginsVersion as [latest [e'|]]; cbn [fst snd].
    + split; [|reflexivity]. split; [intros _; right; left; eauto|reflexivity].
    + destruct (version =? latest)%string; cbn [negb];
        (destruct (ReadDir _ (pathJoin _)) as [infos [e1|]]; cbn [fst snd];
         [|destruct (ReadDir _ CUSTOM_PLUGINS_DIR) as [infos' [e2|]];
           cbn [fst snd]]);
        (split;
         [split;
          [first [discriminate | intros _; eauto 6]
          |intros [(x & Hx & _)|[[x Hx]|[[x Hx]|[x Hx]]]];
           first [reflexivity | discriminate]]
         |intros [(x & Hx & _)|[x Hx]]; discriminate]).
Qed.

(** X21: after a parse that returned, [runPlugin] gets past the
    dimensions of the status point exactly when the exit status of the
    plugin was 0, 1, 2 or 3; on any other exit status it panics there,
    before anything is reported. *)
Theorem parsed_status_dimensions (now : Go.Time) (plugin : PluginMetadata)
    (cmdState : Z) (firstLine hostname : string) (instance : Instance)
    (out : PluginOutput) :
  parsePluginOutput now plugin cmdState firstLine = Ok out ->
  ((exists dimensions, statusDimensions hostname instance out = Ok dimensions)
   <-> (0 <= cmdState <= 3)%Z)
  /\ (~ (0 <= cmdState <= 3)%Z ->
      statusDimensions hostname instance out = Panic (UnknownState cmdState)).
Proof.
  intros Hparse. apply parsePluginOutput_state in Hparse.
  unfold statusDimensions. rewrite Hparse.
  destruct (decide (0 <= cmdState <= 3)%Z) as [Hin|Hout].
  - split; [|intros H; now destruct H].
    split; [intros _; exact Hin|intros _].
    assert (Hcases : cmdState = 0%Z \/ cmdState = 1%Z
                     \/ cmdState = 2%Z \/ cmdState = 3%Z) by lia.
    destruct Hcases as [ -> | [ -> | [ -> | -> ] ] ];
      cbn [PluginStateOutput_String mbind result_bind];
      destruct (String.eqb (Instance_Name instance) ""); eauto.
  - rewrite String_outside by assumption. cbn [mbind result_bind].
    split; [|reflexivity].
    split; [intros [dimensions H]; discriminate H|intros H; now destruct Hout].
Qed.



End Agent.

(** ** The properties on concrete inputs *)

(** C8: read at two different instants, the clock makes two runs of the
    parser on the same line differ (in [timestamp]), so the output is not a
    function of the plugin, the exit status and the line alone. *)
Lemma parsePluginOutput_twice_differs :
  ~ (forall ParseFloat Unmarshal (now1 now2 : Go.Time)
            (plugin : PluginMetadata) (cmdState : Z) (firstLine : string),
        parsePluginOutput ParseFloat Unmarshal now1 plugin cmdState firstLine
        = parsePluginOutput ParseFloat Unmarshal now2 plugin cmdState
            firstLine).
Proof.
  intros H.
  specialize (H integerParseFloat emptyArrayUnmarshal 0%Z 1%Z
                {| Name := "p"; Path := "/plugins/p"; Output := "nagios";
                   CalculateRates := []; IsCustom := false |}
                0%Z "OK | a=1").
  vm_compute in H. discriminate H.
Qed.

(** The three cases of [parseNagiosOutput_by_pipes] on lines with no, one
    and two ['|']. *)
Lemma parseNagiosOutput_by_pipes_witness :
  (Go.Count "OK - all fine" "|" = 0%nat
   /\ parseNagiosOutput integerParseFloat 5%Z 1%Z "OK - all fine"
      = Ok {| state := WARNING; msg := "OK - all fine"; points := None;
              metrics := None; timestamp := 5%Z |})
  /\ (Go.Count "OK | a=1 b=2" "|" = 1%nat
      /\ exists status perfdata,
          Go.TrimSpace "OK | a=1 b=2" = status ++ "|" ++ perfdata
          /\ Go.Count status "|" = 0%nat
          /\ Go.Count perfdata "|" = 0%nat
          /\ parseNagiosOutput integerParseFloat 5%Z 0%Z "OK | a=1 b=2"
             = (metricsMap ← reduceMetrics integerParseFloat
                               (Tokenizer.tokenize (Go.TrimSpace perfdata));
                Ok {| state := OK; msg := Go.TrimSpace status;
                      points := None; metrics := Some metricsMap;
                      timestamp := 5%Z |}))
  /\ ((2 <= Go.Count "OK | a=1 | b=2" "|")%nat
      /\ parseNagiosOutput integerParseFloat 5%Z 0%Z "OK | a=1 | b=2"
         = Err ErrFirstLineFormat).
Proof.
  split; [|split].
  - split; [reflexivity|].
    rewrite (proj1 (parseNagiosOutput_by_pipes integerParseFloat
                      5%Z 1%Z "OK - all fine")); reflexivity.
  - split; [reflexivity|].
    apply (proj1 (proj2 (parseNagiosOutput_by_pipes integerParseFloat
                           5%Z 0%Z "OK | a=1 b=2"))).
    reflexivity.
  - split; [vm_compute; lia|].
    apply (proj2 (proj2 (parseNagiosOutput_by_pipes integerParseFloat
                           5%Z 0%Z "OK | a=1 | b=2"))).
    vm_compute. lia.
Defined.

(** The line [OK | a=1 b=2] gives the two metrics, with the state of the
    exit status. *)
Example parseNagiosOutput_two_metrics :
  parseNagiosOutput integerParseFloat 5%Z 2%Z "OK | a=1 b=2"
  = Ok {| state := CRITICAL; msg := "OK"; points := None;
          metrics := Some (<["a" := 1%float]> {[ "b" := 2%float ]});
          timestamp := 5%Z |}.
Proof. vm_compute. reflexivity. Qed.

(** [calculateRates_update] on the metric [x], 10 and then 20 four seconds
    later. *)
Lemma calculateRates_update_witness :
  let sample value at_ :=
    {| state := OK; msg := "OK"; points := None;
       metrics := Some {[ "x" := value ]}; timestamp := at_ |} in
  let p := {| Name := "p"; Path := "/plugins/p"; Output := "nagios";
              CalculateRates := ["x"]; IsCustom := false |} in
  let i := {| Instance_Name := ""; ArgsList := []; Args := ∅ |} in
  let OutputCache : gmap string PluginOutput :=
    {[ "p/" := sample 10%float 0%Z ]} in
  let output := sample 20%float 4000000000%Z in
  let update :=
    calculateRates OutputCache ∅ i p output
                   (currentValuesOf literalMatchString p output) in
  OutputCache !! "p/" = Some (sample 10%float 0%Z)
  /\ {| report_name := "plugins.p.x.rate"; report_value := 2.5%float;
        report_dimensions := ∅ |} ∈ update.1
  /\ update.2 = <["p/" := output]> OutputCache.
Proof.
  intros sample p i OutputCache output update.
  destruct (calculateRates_update literalMatchString OutputCache ∅ i p output)
    as (Hstore & _ & Hnext & _).
  split; [reflexivity|]. split; [|exact Hstore].
  destruct (Hnext (sample 10%float 0%Z) eq_refl) as [_ Hrate].
  apply (Hrate "x" 2.5%float).
  exists 10%float, 20%float.
  split; [reflexivity|]. split; [vm_compute; reflexivity|reflexivity].
Defined.

(** [getAvailablePlugins_custom_wins] on the sample disk, where [redis] is
    both bundled and custom. *)
Lemma getAvailablePlugins_custom_wins_witness :
  let resolve :=
    getAvailablePlugins slashJoin lastComponent formatOnlyYaml
      "/plugins" "/custom" (fun _ => ("v1", None)) (fun _ => false)
      ("v1", None) (fun _ fs => fs) in
  let plugin name path format isCustom :=
    {| Name := name; Path := path; Output := format; CalculateRates := [];
       IsCustom := isCustom |} in
  let merged : gmap string PluginMetadata :=
    <["mysql" := plugin "mysql" "/plugins/v1/mysql" "nagios" false]>
      {[ "redis" := plugin "redis" "/custom/redis" "errplane" true ]} in
  resolve sampleDisk = (Some merged, sampleDisk)
  /\ merged !! "redis"
     = Some (plugin "redis" "/custom/redis" "errplane" true).
Proof.
  intros resolve plugin merged.
  assert (Hresolve : resolve sampleDisk = (Some merged, sampleDisk))
    by (vm_compute; reflexivity).
  split; [exact Hresolve|].
  destruct (getAvailablePlugins_custom_wins slashJoin lastComponent
              formatOnlyYaml "/plugins" "/custom" (fun _ => ("v1", None))
              (fun _ => false) ("v1", None) (fun _ fs => fs)
              sampleDisk sampleDisk merged Hresolve)
    as (plugins & customPlugins & Hplugins & Hcustom & Hshared & _).
  assert (Hbundled : plugins !! "redis"
                     = Some (plugin "redis" "/plugins/v1/redis" "nagios" false)).
  { revert Hplugins.
    replace (getPluginsInfo slashJoin lastComponent formatOnlyYaml sampleDisk
               (slashJoin ["/plugins"; ("v1", @None error).1]))
      with (Ok (<["mysql" := plugin "mysql" "/plugins/v1/mysql" "nagios" false]>
                  ({[ "redis" := plugin "redis" "/plugins/v1/redis" "nagios"
                                   false ]} : gmap string PluginMetadata)))
      by (vm_compute; reflexivity).
    intros [= <-]. reflexivity. }
  assert (Hown : customPlugins !! "redis"
                 = Some (plugin "redis" "/custom/redis" "errplane" false)).
  { revert Hcustom.
    replace (getPluginsInfo slashJoin lastComponent formatOnlyYaml sampleDisk
               "/custom")
      with (Ok ({[ "redis" := plugin "redis" "/custom/redis" "errplane"
                                false ]} : gmap string PluginMetadata))
      by (vm_compute; reflexivity).
    intros [= <-]. reflexivity. }
  exact (proj1 (Hshared "redis" _ _ Hbundled Hown)).
Defined.

(** ** Further properties on concrete inputs *)

(** [parsePluginOutput_shape] on a nagios line with one metric. *)
Lemma parsePluginOutput_shape_witness :
  let plugin := {| Name := "p"; Path := "/plugins/p"; Output := "nagios";
                   CalculateRates := []; IsCustom := false |} in
  let out := {| state := WARNING; msg := "WARN"; points := None;
                metrics := Some {[ "a" := 1%float ]}; timestamp := 5%Z |} in
  parsePluginOutput integerParseFloat emptyArrayUnmarshal 5%Z plugin 1%Z
                    "WARN | a=1" = Ok out
  /\ state out = 1%Z /\ timestamp out = 5%Z.
Proof.
  intros plugin out.
  assert (H : parsePluginOutput integerParseFloat emptyArrayUnmarshal 5%Z
                plugin 1%Z "WARN | a=1" = Ok out) by (vm_compute; reflexivity).
  split; [exact H|].
  destruct (parsePluginOutput_shape integerParseFloat emptyArrayUnmarshal
              5%Z plugin 1%Z "WARN | a=1" out H) as (Hstate & Htime & _).
  now split.
Defined.

(** [parseErrplaneOutput_with_pipe] on a line with an empty array. *)
Lemma parseErrplaneOutput_with_pipe_witness :
  (1 <= Go.Count "ok | []" "|")%nat
  /\ exists status metric rest,
      Go.TrimSpace "ok | []" = status ++ "|" ++ metric ++ rest
      /\ Go.Count metric "|" = 0%nat.
Proof.
  assert (H : (1 <= Go.Count "ok | []" "|")%nat) by (vm_compute; lia).
  split; [exact H|].
  destruct (parseErrplaneOutput_with_pipe emptyArrayUnmarshal 5%Z 0%Z
              "ok | []" H) as (status & metric & rest & Hline & _ & Hm & _).
  now exists status, metric, rest.
Defined.

(** [parseNagiosOutput_failures] on a line whose one metric is a bare
    unit. *)
Lemma parseNagiosOutput_failures_witness :
  (Go.Count "OK | x=s" "|" = 1%nat
   /\ Tokenizer.tokenize (Go.TrimSpace (perfdataOf "OK | x=s")) !! "x"
      = Some "s"
   /\ bareUnit "s" = true)
  /\ parseNagiosOutput integerParseFloat 5%Z 0%Z "OK | x=s"
     = Panic (IndexOutOfRange (-1) 1).
Proof.
  assert (H : Go.Count "OK | x=s" "|" = 1%nat
              /\ Tokenizer.tokenize (Go.TrimSpace (perfdataOf "OK | x=s")) !! "x"
                 = Some "s"
              /\ bareUnit "s" = true) by (repeat split; vm_compute; reflexivity).
  split; [exact H|]. destruct H as (Hcount & Hx & Hbare).
  apply (proj2 (parseNagiosOutput_failures integerParseFloat 5%Z 0%Z
                  "OK | x=s")).
  split; [reflexivity|]. split; [exact Hcount|]. now exists "x", "s".
Defined.

(** [parseNagiosOutput_metrics] on a line with two metrics. *)
Lemma parseNagiosOutput_metrics_witness :
  let out := {| state := OK; msg := "OK"; points := None;
                metrics := Some (<["a" := 1%float]> {[ "b" := 2%float ]});
                timestamp := 5%Z |} in
  Go.Count "OK | a=1 b=2" "|" = 1%nat
  /\ parseNagiosOutput integerParseFloat 5%Z 0%Z "OK | a=1 b=2" = Ok out
  /\ msg out = Go.TrimSpace (statusOf "OK | a=1 b=2").
Proof.
  intros out.
  assert (Hcount : Go.Count "OK | a=1 b=2" "|" = 1%nat) by reflexivity.
  assert (H : parseNagiosOutput integerParseFloat 5%Z 0%Z "OK | a=1 b=2"
              = Ok out) by (vm_compute; reflexivity).
  split; [exact Hcount|]. split; [exact H|].
  exact (proj1 (parseNagiosOutput_metrics integerParseFloat 5%Z 0%Z
                  "OK | a=1 b=2" out Hcount H)).
Defined.

(** [reduceMetrics_order] on two raw metrics visited in the other order. *)
Lemma reduceMetrics_order_witness :
  let metrics : gmap string string := <["a" := "1"]> {[ "b" := "2" ]} in
  [("b", "2"); ("a", "1")] ≡ₚ map_to_list metrics
  /\ reduceEntries integerParseFloat [("b", "2"); ("a", "1")]
     = reduceMetrics integerParseFloat metrics.
Proof.
  intros metrics.
  assert (H : [("b", "2"); ("a", "1")] ≡ₚ map_to_list metrics).
  { replace (map_to_list metrics) with [("a", "1"); ("b", "2")]
      by (vm_compute; reflexivity).
    apply perm_swap. }
  split; [exact H|].
  exact (reduceMetrics_order integerParseFloat metrics _ H).
Defined.

(** [tokenize_plain_perfdata] on two tokens. *)
Lemma tokenize_plain_perfdata_witness :
  let entries := [("a", "1"); ("b", "2")] in
  (entries <> []
   /\ Forall (fun entry => plain entry.1 = true /\ plain entry.2 = true) entries
   /\ NoDup entries.*1)
  /\ exists raw,
      Tokenizer.tokenize "a=1 b=2" !! "a" = Some raw
      /\ (raw = "1" \/ raw = " 1")
      /\ firstField raw = firstField "1".
Proof.
  intros entries.
  assert (H : entries <> []
              /\ Forall (fun entry => plain entry.1 = true /\ plain entry.2 = true)
                        entries
              /\ NoDup entries.*1).
  { split; [discriminate|]. split.
    - repeat constructor.
    - apply (bool_decide_unpack _). vm_compute. exact I. }
  split; [exact H|]. destruct H as (Hne & Hplain & Hnodup).
  exact (tokenize_plain_perfdata entries Hne Hplain Hnodup "a").
Defined.

(** [tokenize_quoted_name] on a name with a quote in it. *)
Lemma tokenize_quoted_name_witness :
  (quotable "it's" = true /\ plain "2" = true)
  /\ Tokenizer.tokenize "'it''s'=2" = {[ "it's" := "2" ]}.
Proof.
  split; [now split|].
  exact (tokenize_quoted_name "it's" "2" eq_refl eq_refl).
Defined.

(** [calculateRates_other_key] on two plugins with one unnamed instance
    each. *)
Lemma calculateRates_other_key_witness :
  let plugin name := {| Name := name; Path := "/plugins/" ++ name;
                        Output := "nagios"; CalculateRates := ["x"];
                        IsCustom := false |} in
  let unnamed := {| Instance_Name := ""; ArgsList := []; Args := ∅ |} in
  let sample value at_ :=
    {| state := OK; msg := "OK"; points := None;
       metrics := Some {[ "x" := value ]}; timestamp := at_ |} in
  let afterA :=
    (calculateRates ∅ ∅ unnamed (plugin "p") (sample 10%float 0%Z)
                    {[ "x" := 10%float ]}).2 in
  (Go.Count "p" "/" = 0%nat /\ Go.Count "q" "/" = 0%nat
   /\ ("p", "") <> ("q", ""))
  /\ (calculateRates afterA ∅ unnamed (plugin "q") (sample 20%float 1%Z)
                     {[ "x" := 20%float ]}).2 !! "p/"
     = Some (sample 10%float 0%Z).
Proof.
  intros plugin unnamed sample afterA.
  assert (H : Go.Count "p" "/" = 0%nat /\ Go.Count "q" "/" = 0%nat
              /\ ("p", "") <> ("q", "")) by (repeat split; discriminate).
  split; [exact H|]. destruct H as (Hp & Hq & Hdiff).
  exact (proj2 (calculateRates_other_key ∅ ∅ ∅ unnamed unnamed
                  (plugin "p") (plugin "q") (sample 10%float 0%Z)
                  (sample 20%float 1%Z) {[ "x" := 10%float ]}
                  {[ "x" := 20%float ]} Hp Hq Hdiff)).
Defined.

(** [ineligible_metric_has_no_rate] on a metric that the one pattern does
    not match. *)
Lemma ineligible_metric_has_no_rate_witness :
  let plugin := {| Name := "p"; Path := "/plugins/p"; Output := "nagios";
                   CalculateRates := ["x"]; IsCustom := false |} in
  let output := {| state := OK; msg := "OK"; points := None;
                   metrics := Some (<["x" := 1%float]> {[ "y" := 2%float ]});
                   timestamp := 5%Z |} in
  matchesAny literalMatchString (CalculateRates plugin) "y" = false
  /\ currentValuesOf literalMatchString plugin output !! "y" = None.
Proof.
  intros plugin output.
  assert (H : matchesAny literalMatchString (CalculateRates plugin) "y"
              = false) by reflexivity.
  split; [exact H|].
  exact (proj1 (ineligible_metric_has_no_rate literalMatchString ∅ ∅
                  {| Instance_Name := ""; ArgsList := []; Args := ∅ |}
                  plugin output "y" H)).
Defined.

(** [getAvailablePlugins_registry] on the sample disk: nothing is
    installed, and [mysql] is bound under its own name. *)
Lemma getAvailablePlugins_registry_witness :
  let resolve :=
    getAvailablePlugins slashJoin lastComponent formatOnlyYaml
      "/plugins" "/custom" (fun _ => ("v1", None)) (fun _ => false)
      ("v1", None) (fun _ fs => fs) in
  let plugin name path format isCustom :=
    {| Name := name; Path := path; Output := format; CalculateRates := [];
       IsCustom := isCustom |} in
  let merged : gmap string PluginMetadata :=
    <["mysql" := plugin "mysql" "/plugins/v1/mysql" "nagios" false]>
      {[ "redis" := plugin "redis" "/custom/redis" "errplane" true ]} in
  resolve sampleDisk = (Some merged, sampleDisk)
  /\ "mysql" = lastComponent "/plugins/v1/mysql".
Proof.
  intros resolve plugin merged.
  assert (Hresolve : resolve sampleDisk = (Some merged, sampleDisk))
    by (vm_compute; reflexivity).
  split; [exact Hresolve|].
  destruct (getAvailablePlugins_registry slashJoin lastComponent
              formatOnlyYaml "/plugins" "/custom" (fun _ => ("v1", None))
              (fun _ => false) ("v1", None) (fun _ fs => fs)
              sampleDisk sampleDisk merged Hresolve)
    as (_ & plugins & customPlugins & _ & _ & _ & Hkeys).
  exact (proj1 (proj2 (Hkeys "mysql"
                         (plugin "mysql" "/plugins/v1/mysql" "nagios" false)
                         eq_refl))).
Defined.

(** [args_layout] on an instance with one positional and one named
    argument. *)
Lemma args_layout_witness :
  let instance := {| Instance_Name := "main"; ArgsList := ["-v"];
                     Args := {[ "host" := "localhost" ]} |} in
  map_to_list (Args instance) ≡ₚ map_to_list (Args instance)
  /\ take 1 (args instance) = ["-v"]
  /\ length (args instance) = 3%nat.
Proof.
  intros instance.
  assert (H : map_to_list (Args instance) ≡ₚ map_to_list (Args instance))
    by reflexivity.
  split; [exact H|].
  destruct (args_layout instance (map_to_list (Args instance)) H)
    as (Htake & Hlength & _).
  split; [exact Htake|]. exact Hlength.
Defined.

(** [monitorPlugins_failed_fetch] on a first turn whose fetch fails. *)
Lemma monitorPlugins_failed_fetch_witness :
  let fetches : list (AgentConfiguration + error) :=
    [inr (ErrLibrary "connection refused")] in
  fetches !! 0%nat = Some (inr (ErrLibrary "connection refused"))
  /\ monitorPlugins slashJoin lastComponent formatOnlyYaml
       "/plugins" "/custom" (fun _ => ("v1", None)) (fun _ => false)
       ("v1", None) (fun _ fs => fs) fetches sampleDisk !! 0%nat
     = Some [].
Proof.
  intros fetches. split; [reflexivity|].
  exact (monitorPlugins_failed_fetch slashJoin lastComponent formatOnlyYaml
           "/plugins" "/custom" (fun _ => ("v1", None)) (fun _ => false)
           ("v1", None) (fun _ fs => fs) fetches sampleDisk 0%nat
           (ErrLibrary "connection refused") eq_refl).
Defined.

(** [monitorTick_launches] on the sample disk: a configured plugin without
    instances is started once, with the unnamed instance. *)
Lemma monitorTick_launches_witness :
  let config := {| Plugins := {[ "mysql" := [] ]} |} in
  let unnamed := {| Instance_Name := ""; ArgsList := []; Args := ∅ |} in
  let mysql := {| Name := "mysql"; Path := "/plugins/v1/mysql";
                  Output := "nagios"; CalculateRates := [];
                  IsCustom := false |} in
  (Plugins config !! "mysql" = Some []
   /\ default ∅
        (getAvailablePlugins slashJoin lastComponent formatOnlyYaml
           "/plugins" "/custom" (fun _ => ("v1", None)) (fun _ => false)
           ("v1", None) (fun _ fs => fs) sampleDisk).1 !! "mysql"
      = Some mysql)
  /\ (unnamed, mysql)
     ∈ (monitorTick slashJoin lastComponent formatOnlyYaml
          "/plugins" "/custom" (fun _ => ("v1", None)) (fun _ => false)
          ("v1", None) (fun _ fs => fs) None (inl config) sampleDisk).1.
Proof.
  intros config unnamed mysql.
  assert (H : Plugins config !! "mysql" = Some []
              /\ default ∅
                   (getAvailablePlugins slashJoin lastComponent formatOnlyYaml
                      "/plugins" "/custom" (fun _ => ("v1", None))
                      (fun _ => false) ("v1", None) (fun _ fs => fs)
                      sampleDisk).1 !! "mysql"
                 = Some mysql) by (split; vm_compute; reflexivity).
  split; [exact H|]. destruct H as [Hconfig Hfound].
  apply (proj2 (monitorTick_launches slashJoin lastComponent formatOnlyYaml
                  "/plugins" "/custom" (fun _ => ("v1", None))
                  (fun _ => false) ("v1", None) (fun _ fs => fs)
                  None config sampleDisk unnamed mysql)).
  exists "mysql", []. split; [exact Hconfig|]. split; [exact Hfound|].
  right. now split.
Defined.

(** [getPluginsInfo_scan] on the custom directory of the sample disk. *)
Lemma getPluginsInfo_scan_witness :
  let redis := {| Name := "redis"; Path := "/custom/redis";
                  Output := "errplane"; CalculateRates := [];
                  IsCustom := false |} in
  getPluginsInfo slashJoin lastComponent formatOnlyYaml sampleDisk "/custom"
  = Ok {[ "redis" := redis ]}
  /\ "redis" = lastComponent (Path redis).
Proof.
  intros redis.
  assert (H : getPluginsInfo slashJoin lastComponent formatOnlyYaml sampleDisk
                "/custom" = Ok {[ "redis" := redis ]})
    by (vm_compute; reflexivity).
  split; [exact H|].
  pose proof (getPluginsInfo_scan slashJoin lastComponent formatOnlyYaml
                sampleDisk "/custom") as Hscan.
  rewrite H in Hscan. destruct Hscan as (_ & Hbound & _).
  exact (proj1 (proj2 (Hbound "redis" redis eq_refl))).
Defined.

(** [availablePlugins_offered] with a command that always succeeds: of the
    two plugins found, the one that the configuration does not run is
    offered. *)
Lemma availablePlugins_offered_witness :
  let plugin name := {| Name := name; Path := "/plugins/v1/" ++ name;
                        Output := "nagios"; CalculateRates := [];
                        IsCustom := false |} in
  let plugins : option (gmap string PluginMetadata) :=
    Some (<["mysql" := plugin "mysql"]> {[ "redis" := plugin "redis" ]}) in
  let config := {| Plugins := {[ "redis" := [] ]} |} in
  (default ∅ plugins !! "mysql" = Some (plugin "mysql")
   /\ Plugins config !! "mysql" = None)
  /\ "mysql" ∈ availablePlugins slashJoin (fun _ => None)
                 (pluginsToCheck plugins (inl config)).
Proof.
  intros plugin plugins config.
  assert (H : default ∅ plugins !! "mysql" = Some (plugin "mysql")
              /\ Plugins config !! "mysql" = None)
    by (split; vm_compute; reflexivity).
  split; [exact H|]. destruct H as [Hfound Hconfig].
  apply (proj2 (availablePlugins_offered slashJoin (fun _ => None)
                  plugins (inl config))).
  exists (plugin "mysql"). split; [exact Hfound|]. now split.
Defined.

(** [metricPoints_reported] on an output with one metric. *)
Lemma metricPoints_reported_witness :
  let plugin := {| Name := "p"; Path := "/plugins/p"; Output := "nagios";
                   CalculateRates := []; IsCustom := false |} in
  let instance := {| Instance_Name := "main"; ArgsList := []; Args := ∅ |} in
  let output := {| state := OK; msg := "OK"; points := None;
                   metrics := Some {[ "load" := 0.5%float ]};
                   timestamp := 5%Z |} in
  default ∅ (metrics output) !! "load" = Some 0.5%float
  /\ exists report,
      report ∈ metricPoints "web1" instance plugin output
      /\ report_name report = "plugins.p.load"
      /\ report_value report = 0.5%float.
Proof.
  intros plugin instance output.
  assert (H : default ∅ (metrics output) !! "load" = Some 0.5%float)
    by reflexivity.
  split; [exact H|].
  exact (proj2 (proj2 (proj2 (metricPoints_reported "web1" instance plugin
                                output)) "load" 0.5%float) H).
Defined.

(** [parsed_status_dimensions] on a plugin that exits with status 4. *)
Lemma parsed_status_dimensions_witness :
  let plugin := {| Name := "p"; Path := "/plugins/p"; Output := "nagios";
                   CalculateRates := []; IsCustom := false |} in
  let instance := {| Instance_Name := ""; ArgsList := []; Args := ∅ |} in
  let out := {| state := 4%Z; msg := "OK"; points := None; metrics := None;
                timestamp := 5%Z |} in
  parsePluginOutput integerParseFloat emptyArrayUnmarshal 5%Z plugin 4%Z "OK"
  = Ok out
  /\ statusDimensions "web1" instance out = Panic (UnknownState 4).
Proof.
  intros plugin instance out.
  assert (H : parsePluginOutput integerParseFloat emptyArrayUnmarshal 5%Z
                plugin 4%Z "OK" = Ok out) by (vm_compute; reflexivity).
  split; [exact H|].
  apply (proj2 (parsed_status_dimensions integerParseFloat emptyArrayUnmarshal
                  5%Z plugin 4%Z "OK" "web1" instance out H)).
  lia.
Defined.

